(** * The LSIF upload pipeline: conversion, visibility update and retention

    A shallow embedding of the worker's [convertUpload] and of the three
    functions it calls ([convertDatabase], [updateCommitsAndDumpsVisibleFromTip],
    [purgeOldDumps], with the helpers [dirsize] and [filesize]).

    The asynchronous functions are modelled in a state-and-exception monad
    over a [World]: the file tree, the state behind the dump and dependency
    managers, and a chronological log of the calls that were made.  Every
    [await] is a monadic bind, so a call has returned before the next one is
    issued.  The collaborators that the worker imports (the converter, the
    two managers, Node's [path], the settings) are parameters.  Byte counts
    are JavaScript numbers in the source; they are integers here. *)

From Stdlib Require Import Ascii.
From stdpp Require Import gmap strings list fin_maps.

Open Scope Z_scope.

(* ================================================================== *)
(** * Part I: definitions *)
(* ================================================================== *)

(** ** Errors and results *)

(** A thrown JavaScript value: [code] is the [error.code] property that Node
    sets on file-system errors and that is absent from a plain [new Error]. *)
Record Error := {
  error_code : option string;
  error_message : string
}.

Inductive Result (A : Type) :=
| Ok (value : A)
| Throw (error : Error).
Arguments Ok {A} value.
Arguments Throw {A} error.

Definition succeeded {A} (r : Result A) : bool :=
  match r with Ok _ => true | Throw _ => false end.

(** [new Error(message)] *)
Definition new_Error (message : string) : Error :=
  {| error_code := None; error_message := message |}.

(** The error Node raises when a system call finds no entry at [path]. *)
Definition ENOENT (syscall path : string) : Error :=
  {| error_code := Some "ENOENT";
     error_message :=
       "ENOENT: no such file or directory, " +:+ syscall +:+ " '" +:+ path +:+ "'" |}.

(** ** Records of the Postgres models (the fields the worker reads) *)

Record LsifUpload := {
  upload_id : Z;
  upload_repository : string;
  upload_commit : string;
  upload_root : string;
  upload_filename : string
}.

Record LsifDump := {
  dump_id : Z;
  dump_repository : string;
  dump_commit : string;
  dump_root : string
}.

(** ** Commit graph fragments

    [discoverCommits] returns a [Map<string, Set<string>>] from a commit to
    its parents. *)

Abbreviation CommitGraph := (gmap string (gset string)).

(** [commits.get(k) || []] *)
Definition parents (commits : CommitGraph) (k : string) : gset string :=
  default ∅ (commits !! k).

(** The body of the loop over [tipCommits.entries()]:
    [commits.set(k, new Set([...(commits.get(k) || []), ...v]))]. *)
Definition mergeEntry (k : string) (v : gset string) (commits : CommitGraph)
  : CommitGraph :=
  <[k := parents commits k ∪ v]> commits.

(** [for (const [k, v] of tipCommits.entries()) { ... }], run on [commits]. *)
Definition mergeTipCommits (commits tipCommits : CommitGraph) : CommitGraph :=
  map_fold mergeEntry commits tipCommits.

(** The merge in the words of the specification: every key of either
    fragment is mapped to the union of its parent sets in both. *)
Definition mergeSpec (a b : CommitGraph) : CommitGraph :=
  union_with (λ x y, Some (x ∪ y)) a b.

(** ** The file tree

    Regular files with their sizes, under their full paths, and the
    directories that exist.  A system call's outcome is a function of this
    state: permissions and I/O faults are outside the model. *)

Record FS := {
  files : gmap string Z;
  dirs : gset string
}.

(** Node's [path] module. *)
Record PathModule := {
  path_join : list string → string;
  path_basename : string → string;
  path_dirname : string → string
}.

(** [fs.stat(filename)], of which the worker reads [.size]. *)
Definition fs_stat (filename : string) (fs : FS) : Result Z * FS :=
  match files fs !! filename with
  | Some size => (Ok size, fs)
  | None => (Throw (ENOENT "stat" filename), fs)
  end.

(** [fs.unlink(filename)] *)
Definition fs_unlink (filename : string) (fs : FS) : Result unit * FS :=
  match files fs !! filename with
  | Some _ => (Ok tt, {| files := delete filename (files fs); dirs := dirs fs |})
  | None => (Throw (ENOENT "unlink" filename), fs)
  end.

(** [fs.rename(oldPath, newPath)]: atomic; it fails, moving nothing, when
    the old path is missing or the directory of the new path does not
    exist, and it replaces a file already at the new path. *)
Definition fs_rename (path : PathModule) (oldPath newPath : string) (fs : FS)
  : Result unit * FS :=
  let missing := ENOENT "rename" (oldPath +:+ "' -> '" +:+ newPath) in
  match files fs !! oldPath with
  | Some size =>
      if decide (path_dirname path newPath ∈ dirs fs)
      then (Ok tt, {| files := <[newPath := size]> (delete oldPath (files fs));
                      dirs := dirs fs |})
      else (Throw missing, fs)
  | None => (Throw missing, fs)
  end.

(** [fs.readdir(directory)]: the names of the files directly inside. *)
Definition fs_readdir (path : PathModule) (directory : string) (fs : FS)
  : Result (list string) * FS :=
  if decide (directory ∈ dirs fs)
  then (Ok (path_basename path <$>
              filter (λ p, path_dirname path p = directory)
                     (map_to_list (files fs)).*1), fs)
  else (Throw (ENOENT "scandir" directory), fs).

(** ** The log of calls

    One event per call, appended when the call has returned, with whether
    it resolved ([ok]) or rejected. *)

Inductive Event :=
| EvConvertLsif (input output : string) (ok : bool)
| EvDeleteOverlappingDumps (repository commit root : string) (ok : bool)
| EvAddPackagesAndReferences (id : Z) (ok : bool)
| EvRename (oldPath newPath : string) (ok : bool)
| EvUnlink (filename : string) (ok : bool)
| EvReaddir (directory : string) (ok : bool)
| EvStat (filename : string) (ok : bool)
| EvDiscoverTip (repository : string) (ok : bool)
| EvDiscoverCommits (repository commit : string) (ok : bool)
| EvUpdateCommits (repository : string) (commits : CommitGraph) (ok : bool)
| EvUpdateDumpsVisibleFromTip (repository tipCommit : string) (ok : bool)
| EvGetOldestPrunableDump (answer : Result (option LsifDump))
| EvDeleteDump (dump : LsifDump) (ok : bool)
| EvLogInfo (message : string)
| EvLogWarn (message : string) (currentSizeBytes softMaximumSizeBytes : Z)
| EvLockAcquire (name : string)
| EvLockRelease (name : string).

(** ** Worlds and the monad of asynchronous functions *)

Record World (Store : Type) := {
  world_fs : FS;
  world_store : Store;
  world_log : list Event
}.
Arguments world_fs {Store} _.
Arguments world_store {Store} _.
Arguments world_log {Store} _.

Definition record_event {Store} (ev : Event) (w : World Store) : World Store :=
  {| world_fs := world_fs w;
     world_store := world_store w;
     world_log := world_log w ++ [ev] |}.

(** A [Promise<A>]: it resolves or rejects, and the world moves on either way. *)
Definition M (Store A : Type) : Type := World Store → Result A * World Store.

#[global] Instance M_ret {Store} : MRet (M Store) := λ A a w, (Ok a, w).

(** [await m], then [k]. *)
#[global] Instance M_bind {Store} : MBind (M Store) := λ A B k m w,
  match m w with
  | (Ok a, w') => k a w'
  | (Throw error, w') => (Throw error, w')
  end.

Definition throw {Store A} (error : Error) : M Store A :=
  λ w, (Throw error, w).

(** [try { body } catch (error) { handler }] *)
Definition try_catch {Store A} (body : M Store A) (handler : Error → M Store A)
  : M Store A :=
  λ w, match body w with
       | (Ok a, w') => (Ok a, w')
       | (Throw error, w') => handler error w'
       end.

Definition emit {Store} (ev : Event) : M Store unit :=
  λ w, (Ok tt, record_event ev w).

(** A call into Node's [fs]. *)
Definition syscall {Store A} (ev : bool → Event) (f : FS → Result A * FS)
  : M Store A :=
  λ w, let '(r, fs') := f (world_fs w) in
       (r, {| world_fs := fs';
              world_store := world_store w;
              world_log := world_log w ++ [ev (succeeded r)] |}).

(** A collaborator outside this file may read and change the file tree and
    the store, and may throw. *)
Definition Ext (Store A : Type) : Type := FS * Store → Result A * (FS * Store).

Definition external {Store A} (ev : Result A → Event) (f : Ext Store A)
  : M Store A :=
  λ w, let '(r, (fs', store')) := f (world_fs w, world_store w) in
       (r, {| world_fs := fs';
              world_store := store';
              world_log := world_log w ++ [ev r] |}).

Fixpoint mapM {Store A B} (f : A → M Store B) (l : list A) : M Store (list B) :=
  match l with
  | [] => mret []
  | x :: l' => y ← f x; ys ← mapM f l'; mret (y :: ys)
  end.

(** A function whose loop may not terminate is run with fuel: [None] is an
    execution that has not returned within it. *)
Definition MF (Store A : Type) : Type :=
  World Store → option (Result A * World Store).

#[global] Instance MF_ret {Store} : MRet (MF Store) := λ A a w, Some (Ok a, w).

#[global] Instance MF_bind {Store} : MBind (MF Store) := λ A B k m w,
  match m w with
  | Some (Ok a, w') => k a w'
  | Some (Throw error, w') => Some (Throw error, w')
  | None => None
  end.

Definition completes {Store A} (m : M Store A) : MF Store A := λ w, Some (m w).

(** ** The collaborators *)

(** [DumpManager] (shared/store/dumps), by the methods the worker calls. *)
Record DumpManager (Store : Type) := {
  deleteOverlappingDumps : string → string → string → Ext Store unit;
  discoverTip : string → list string → Ext Store (option string);
  discoverCommits : string → string → list string → Ext Store CommitGraph;
  updateCommits : string → CommitGraph → Ext Store unit;
  updateDumpsVisibleFromTip : string → string → Ext Store unit;
  getOldestPrunableDump : Ext Store (option LsifDump);
  deleteDump : LsifDump → Ext Store unit
}.
Arguments deleteOverlappingDumps {Store} _ _ _ _ _.
Arguments discoverTip {Store} _ _ _ _.
Arguments discoverCommits {Store} _ _ _ _ _.
Arguments updateCommits {Store} _ _ _ _.
Arguments updateDumpsVisibleFromTip {Store} _ _ _ _.
Arguments getOldestPrunableDump {Store} _ _.
Arguments deleteDump {Store} _ _ _.

(** [DependencyManager] (shared/store/dependencies). *)
Record DependencyManager (Store Packages References : Type) := {
  addPackagesAndReferences : Z → Packages → References → Ext Store unit
}.
Arguments addPackagesAndReferences {Store Packages References} _ _ _ _ _.

(** typeorm's handles; the state they give access to is the store. *)
Record Connection := { connection_name : string }.
Record EntityManager := { connection : Connection }.

Record Configuration := { gitServers : list string }.

(** What the worker imports: [settings], [constants], [path], [dbFilename]
    (shared/paths) and [convertLsif] (./importer). *)
Record Imports (Store Packages References : Type) := {
  path : PathModule;
  STORAGE_ROOT : string;
  DBS_DIR_MAXIMUM_SIZE_BYTES : Z;
  TEMP_DIR : string;
  DBS_DIR : string;
  dbFilename : string → Z → string → string → string;
  convertLsif : string → string → Ext Store (Packages * References)
}.
Arguments path {Store Packages References} _.
Arguments STORAGE_ROOT {Store Packages References} _.
Arguments DBS_DIR_MAXIMUM_SIZE_BYTES {Store Packages References} _.
Arguments TEMP_DIR {Store Packages References} _.
Arguments DBS_DIR {Store Packages References} _.
Arguments dbFilename {Store Packages References} _ _ _ _ _.
Arguments convertLsif {Store Packages References} _ _ _ _.

(** ** The worker *)

Section worker.
Context {Store Packages References : Type}.
Context (imports : Imports Store Packages References).

(** *** Calls, as they appear in the log *)

Definition stat (filename : string) : M Store Z :=
  syscall (EvStat filename) (fs_stat filename).

Definition unlink (filename : string) : M Store unit :=
  syscall (EvUnlink filename) (fs_unlink filename).

Definition rename (oldPath newPath : string) : M Store unit :=
  syscall (EvRename oldPath newPath) (fs_rename (path imports) oldPath newPath).

Definition readdir (directory : string) : M Store (list string) :=
  syscall (EvReaddir directory) (fs_readdir (path imports) directory).

Definition logger_info (message : string) : M Store unit :=
  emit (EvLogInfo message).

Definition logger_warn (message : string) (currentSizeBytes softMaximumSizeBytes : Z)
  : M Store unit :=
  emit (EvLogWarn message currentSizeBytes softMaximumSizeBytes).

Definition call_convertLsif (input output : string)
  : M Store (Packages * References) :=
  external (λ r, EvConvertLsif input output (succeeded r))
           (convertLsif imports input output).

Definition call_deleteOverlappingDumps (dumpManager : DumpManager Store)
    (repository commit root : string) : M Store unit :=
  external (λ r, EvDeleteOverlappingDumps repository commit root (succeeded r))
           (deleteOverlappingDumps dumpManager repository commit root).

Definition call_addPackagesAndReferences
    (dependencyManager : DependencyManager Store Packages References)
    (id : Z) (packages : Packages) (references : References) : M Store unit :=
  external (λ r, EvAddPackagesAndReferences id (succeeded r))
           (addPackagesAndReferences dependencyManager id packages references).

Definition call_discoverTip (dumpManager : DumpManager Store)
    (repository : string) (gitserverUrls : list string)
  : M Store (option string) :=
  external (λ r, EvDiscoverTip repository (succeeded r))
           (discoverTip dumpManager repository gitserverUrls).

Definition call_discoverCommits (dumpManager : DumpManager Store)
    (repository commit : string) (gitserverUrls : list string)
  : M Store CommitGraph :=
  external (λ r, EvDiscoverCommits repository commit (succeeded r))
           (discoverCommits dumpManager repository commit gitserverUrls).

Definition call_updateCommits (dumpManager : DumpManager Store)
    (repository : string) (commits : CommitGraph) : M Store unit :=
  external (λ r, EvUpdateCommits repository commits (succeeded r))
           (updateCommits dumpManager repository commits).

Definition call_updateDumpsVisibleFromTip (dumpManager : DumpManager Store)
    (repository tipCommit : string) : M Store unit :=
  external (λ r, EvUpdateDumpsVisibleFromTip repository tipCommit (succeeded r))
           (updateDumpsVisibleFromTip dumpManager repository tipCommit).

Definition call_getOldestPrunableDump (dumpManager : DumpManager Store)
  : M Store (option LsifDump) :=
  external EvGetOldestPrunableDump (getOldestPrunableDump dumpManager).

Definition call_deleteDump (dumpManager : DumpManager Store) (dump : LsifDump)
  : M Store unit :=
  external (λ r, EvDeleteDump dump (succeeded r)) (deleteDump dumpManager dump).

(** *** convertDatabase *)

(** [path.join(settings.STORAGE_ROOT, constants.TEMP_DIR,
               path.basename(upload.filename))] *)
Definition tempFile (upload : LsifUpload) : string :=
  path_join (path imports)
    [STORAGE_ROOT imports; TEMP_DIR imports;
     path_basename (path imports) (upload_filename upload)].

(** Where the database of [upload] is published. *)
Definition finalFile (upload : LsifUpload) : string :=
  dbFilename imports (STORAGE_ROOT imports) (upload_id upload)
             (upload_repository upload) (upload_commit upload).

(** The [try] block. *)
Definition convertDatabase_try (dumpManager : DumpManager Store)
    (dependencyManager : DependencyManager Store Packages References)
    (upload : LsifUpload) : M Store unit :=
  '(packages, references) ←
    call_convertLsif (upload_filename upload) (tempFile upload);
  call_deleteOverlappingDumps dumpManager
    (upload_repository upload) (upload_commit upload) (upload_root upload);;
  call_addPackagesAndReferences dependencyManager
    (upload_id upload) packages references;;
  rename (tempFile upload) (finalFile upload);;
  logger_info "Created dump".

(** The [catch] block. *)
Definition convertDatabase_catch (upload : LsifUpload) (error : Error)
  : M Store unit :=
  unlink (tempFile upload);;
  throw error.

Definition convertDatabase (entityManager : EntityManager)
    (dumpManager : DumpManager Store)
    (dependencyManager : DependencyManager Store Packages References)
    (upload : LsifUpload) : M Store unit :=
  try_catch (convertDatabase_try dumpManager dependencyManager upload)
            (convertDatabase_catch upload);;
  unlink (upload_filename upload).

(** *** updateCommitsAndDumpsVisibleFromTip *)

Definition updateCommitsAndDumpsVisibleFromTip (dumpManager : DumpManager Store)
    (fetchConfiguration : unit → Configuration) (upload : LsifUpload)
  : M Store unit :=
  let gitserverUrls := gitServers (fetchConfiguration tt) in
  tipCommit ← call_discoverTip dumpManager (upload_repository upload) gitserverUrls;
  match tipCommit with
  | None => throw (new_Error "No tip commit available for repository")
  | Some tipCommit =>
      commits ← call_discoverCommits dumpManager
                  (upload_repository upload) (upload_commit upload) gitserverUrls;
      commits ←
        (if decide (tipCommit ≠ upload_commit upload)
         then
           tipCommits ← call_discoverCommits dumpManager
                          (upload_repository upload) tipCommit gitserverUrls;
           mret (mergeTipCommits commits tipCommits)
         else mret commits);
      call_updateCommits dumpManager (upload_repository upload) commits;;
      call_updateDumpsVisibleFromTip dumpManager (upload_repository upload) tipCommit
  end.

(** *** filesize and dirsize *)

(** [error && error.code === 'ENOENT'] *)
Definition is_ENOENT (error : Error) : bool :=
  bool_decide (error_code error = Some "ENOENT").

Definition filesize (filename : string) : M Store Z :=
  try_catch (stat filename)
            (λ error, if is_ENOENT error then mret 0 else throw error).

(** [Promise.all] over the entries, then [reduce((a, b) => a + b, 0)].
    The [stat] calls change nothing, so the order in which they are served
    does not show. *)
Definition dirsize (directory : string) : M Store Z :=
  filenames ← readdir directory;
  sizes ← mapM (λ filename,
                  filesize (path_join (path imports) [directory; filename]))
               filenames;
  mret (foldl (λ a b, a + b) 0 sizes).

(** *** purgeOldDumps *)

Definition purge_warning : string :=
  "Unable to reduce disk usage of the DB directory because deleting any single dump would drop in-use code intel for a repository.".

(** How one turn of the [while] body ends. *)
Inductive LoopControl :=
| Break
| Continue (currentSizeBytes : Z).

(** The body of the [while] loop, entered with [currentSizeBytes]. *)
Definition purge_body (dumpManager : DumpManager Store) (storageRoot : string)
    (maximumSizeBytes currentSizeBytes : Z) : M Store LoopControl :=
  dump ← call_getOldestPrunableDump dumpManager;
  match dump with
  | None =>
      logger_warn purge_warning currentSizeBytes maximumSizeBytes;;
      mret Break
  | Some dump =>
      logger_info "Pruning dump";;
      let filename :=
        dbFilename imports storageRoot (dump_id dump)
                   (dump_repository dump) (dump_commit dump) in
      size ← filesize filename;
      call_deleteDump dumpManager dump;;
      mret (Continue (currentSizeBytes - size))
  end.

(** [while (currentSizeBytes > maximumSizeBytes) { ... }]; the result is
    the value of [currentSizeBytes] when the loop is left.  One unit of
    fuel is one turn of the body. *)
Fixpoint purge_loop (fuel : nat) (dumpManager : DumpManager Store)
    (storageRoot : string) (maximumSizeBytes currentSizeBytes : Z)
  : MF Store Z :=
  if decide (currentSizeBytes > maximumSizeBytes) then
    match fuel with
    | O => λ _, None
    | S fuel' => λ w,
        match purge_body dumpManager storageRoot maximumSizeBytes
                         currentSizeBytes w with
        | (Throw error, w') => Some (Throw error, w')
        | (Ok Break, w') => Some (Ok currentSizeBytes, w')
        | (Ok (Continue currentSizeBytes'), w') =>
            purge_loop fuel' dumpManager storageRoot maximumSizeBytes
                       currentSizeBytes' w'
        end
    end
  else mret currentSizeBytes.

(** The inner [purge] closure, returning the running total it ends with. *)
Definition purge_total (fuel : nat) (dumpManager : DumpManager Store)
    (storageRoot : string) (maximumSizeBytes : Z) : MF Store Z :=
  currentSizeBytes ←
    completes (dirsize (path_join (path imports) [storageRoot; DBS_DIR imports]));
  purge_loop fuel dumpManager storageRoot maximumSizeBytes currentSizeBytes.

(** [const purge = async (): Promise<void> => { ... }] *)
Definition purge (fuel : nat) (dumpManager : DumpManager Store)
    (storageRoot : string) (maximumSizeBytes : Z) : MF Store unit :=
  purge_total fuel dumpManager storageRoot maximumSizeBytes;;
  mret tt.

(** Modelled from the spec: [withLock] of shared/store/locks, which is not
    among the sources.  It runs the critical section with the named
    advisory lock held for its duration: the lock is taken before the
    section starts and given back when it has resolved or rejected. *)
Definition withLock {A} (connection : Connection) (name : string)
    (criticalSection : MF Store A) : MF Store A :=
  λ w, match criticalSection (record_event (EvLockAcquire name) w) with
       | Some (r, w') => Some (r, record_event (EvLockRelease name) w')
       | None => None
       end.

Definition purgeOldDumps (fuel : nat) (connection : Connection)
    (dumpManager : DumpManager Store) (storageRoot : string)
    (maximumSizeBytes : Z) : MF Store unit :=
  if decide (maximumSizeBytes < 0) then mret tt
  else withLock connection "retention"
                (purge fuel dumpManager storageRoot maximumSizeBytes).

(** *** convertUpload *)

Definition convertUpload (fuel : nat) (entityManager : EntityManager)
    (dumpManager : DumpManager Store)
    (dependencyManager : DependencyManager Store Packages References)
    (fetchConfiguration : unit → Configuration) (upload : LsifUpload)
  : MF Store unit :=
  completes (convertDatabase entityManager dumpManager dependencyManager upload);;
  completes (updateCommitsAndDumpsVisibleFromTip dumpManager fetchConfiguration
                                                 upload);;
  purgeOldDumps fuel (connection entityManager) dumpManager
                (STORAGE_ROOT imports) (DBS_DIR_MAXIMUM_SIZE_BYTES imports).
End worker.

(** ** Vocabulary of the statements *)

(** The file tree and the store of a world, as a collaborator receives them. *)
Definition env_of {Store} (w : World Store) : FS * Store :=
  (world_fs w, world_store w).

(** The calls of the [try] block of [convertDatabase] in program order, each
    still waiting for its outcome. *)
Definition pipeline {Store Packages References}
    (imports : Imports Store Packages References) (upload : LsifUpload)
  : list (bool → Event) :=
  [ EvConvertLsif (upload_filename upload) (tempFile imports upload);
    EvDeleteOverlappingDumps (upload_repository upload) (upload_commit upload)
                             (upload_root upload);
    EvAddPackagesAndReferences (upload_id upload);
    EvRename (tempFile imports upload) (finalFile imports upload) ].

Definition completed (steps : list (bool → Event)) : list Event :=
  (λ step, step true) <$> steps.

(** The world in which the [catch] block starts when call number [n] of the
    pipeline has rejected and left the file tree and the store as [env]. *)
Definition rejected_at {Store Packages References}
    (imports : Imports Store Packages References) (upload : LsifUpload)
    (n : nat) (w : World Store) (env : FS * Store) : World Store :=
  {| world_fs := env.1;
     world_store := env.2;
     world_log :=
       world_log w ++ completed (take n (pipeline imports upload))
                   ++ ((λ step, step false) <$> take 1 (drop n (pipeline imports upload))) |}.

(** A step of the conversion fails: the converter, the overlap deletion, the
    insert into the dependency store or the rename, each after the ones
    before it have resolved.  [error] is what the step threw and the last
    argument is the world it left. *)
Inductive conversion_fails {Store Packages References}
    (imports : Imports Store Packages References)
    (dumpManager : DumpManager Store)
    (dependencyManager : DependencyManager Store Packages References)
    (upload : LsifUpload) (w : World Store) (error : Error)
  : World Store → Prop :=
| converter_fails env1 :
    convertLsif imports (upload_filename upload) (tempFile imports upload) (env_of w)
      = (Throw error, env1) →
    conversion_fails imports dumpManager dependencyManager upload w error
                     (rejected_at imports upload 0 w env1)
| overlap_deletion_fails packages references env1 env2 :
    convertLsif imports (upload_filename upload) (tempFile imports upload) (env_of w)
      = (Ok (packages, references), env1) →
    deleteOverlappingDumps dumpManager (upload_repository upload)
      (upload_commit upload) (upload_root upload) env1 = (Throw error, env2) →
    conversion_fails imports dumpManager dependencyManager upload w error
                     (rejected_at imports upload 1 w env2)
| dependency_insert_fails packages references env1 env2 env3 :
    convertLsif imports (upload_filename upload) (tempFile imports upload) (env_of w)
      = (Ok (packages, references), env1) →
    deleteOverlappingDumps dumpManager (upload_repository upload)
      (upload_commit upload) (upload_root upload) env1 = (Ok tt, env2) →
    addPackagesAndReferences dependencyManager (upload_id upload) packages references
      env2 = (Throw error, env3) →
    conversion_fails imports dumpManager dependencyManager upload w error
                     (rejected_at imports upload 2 w env3)
| rename_fails packages references env1 env2 env3 fs4 :
    convertLsif imports (upload_filename upload) (tempFile imports upload) (env_of w)
      = (Ok (packages, references), env1) →
    deleteOverlappingDumps dumpManager (upload_repository upload)
      (upload_commit upload) (upload_root upload) env1 = (Ok tt, env2) →
    addPackagesAndReferences dependencyManager (upload_id upload) packages references
      env2 = (Ok tt, env3) →
    fs_rename (path imports) (tempFile imports upload) (finalFile imports upload) env3.1
      = (Throw error, fs4) →
    conversion_fails imports dumpManager dependencyManager upload w error
                     (rejected_at imports upload 3 w (fs4, env3.2)).

(** [getOldestPrunableDump] hands out a dump on each of the next [N] calls
    that [purgeOldDumps] makes, and none on the call after them.  Between
    two calls the loop deletes the dump it was given. *)
Fixpoint dumps_then_none {Store} (dumpManager : DumpManager Store) (N : nat)
    (env : FS * Store) : Prop :=
  match N with
  | O => ∃ env', getOldestPrunableDump dumpManager env = (Ok None, env')
  | S n =>
      ∃ dump env1,
        getOldestPrunableDump dumpManager env = (Ok (Some dump), env1) ∧
        ∀ env2, deleteDump dumpManager dump env1 = (Ok tt, env2) →
                dumps_then_none dumpManager n env2
  end.

Definition is_getOldestPrunableDump (ev : Event) : bool :=
  match ev with EvGetOldestPrunableDump _ => true | _ => false end.

(** Turns of the loop body in a trace: each starts with one call of
    [getOldestPrunableDump]. *)
Definition iterations (trace : list Event) : nat :=
  length (filter (λ ev, is_getOldestPrunableDump ev = true) trace).

Definition is_warning (ev : Event) : bool :=
  match ev with EvLogWarn _ _ _ => true | _ => false end.

Definition is_lock_event (ev : Event) : bool :=
  match ev with EvLockAcquire _ | EvLockRelease _ => true | _ => false end.

(** Reads of the file tree: what measuring a directory logs. *)
Definition is_fs_read (ev : Event) : bool :=
  match ev with EvReaddir _ _ | EvStat _ _ => true | _ => false end.

(** What a worker logs when it runs [body] under the lock [name]. *)
Definition critical_section (name : string) (body : list Event) : list Event :=
  EvLockAcquire name :: body ++ [EvLockRelease name].

(** The events of worker [t]. *)
Definition tagged (t : nat) (trace : list Event) : list (nat * Event) :=
  (λ ev, (t, ev)) <$> trace.

(** [l] is a schedule of two workers: it keeps the order of each. *)
Inductive interleaving {A} : list A → list A → list A → Prop :=
| interleaving_nil : interleaving [] [] []
| interleaving_left x l1 l2 l :
    interleaving l1 l2 l → interleaving (x :: l1) l2 (x :: l)
| interleaving_right x l1 l2 l :
    interleaving l1 l2 l → interleaving l1 (x :: l2) (x :: l).

(** Modelled from the spec: the advisory lock behind [withLock], of which
    the sources hold only the call.  At most one critical section runs per
    lock name at any time: the lock is granted only when nobody holds it,
    and given back by its holder.  [holder] is who holds [name] before [l]. *)
Fixpoint lock_respected (name : string) (holder : option nat)
    (l : list (nat * Event)) : bool :=
  match l with
  | [] => true
  | (t, EvLockAcquire n) :: l' =>
      if decide (n = name) then
        match holder with
        | None => lock_respected name (Some t) l'
        | Some _ => false
        end
      else lock_respected name holder l'
  | (t, EvLockRelease n) :: l' =>
      if decide (n = name) then
        match holder with
        | Some t' => if decide (t = t') then lock_respected name None l' else false
        | None => false
        end
      else lock_respected name holder l'
  | _ :: l' => lock_respected name holder l'
  end.

(** ** A small deployment

    Concrete collaborators on which the worker can be run: POSIX-style
    paths, a converter that writes a database twice the size of its input,
    and managers over a store that holds the queue of prunable dumps, the
    tip, the commit graph and the published dump identifiers.
    [demo_faults] names the behaviours that are switched on: a method name
    makes that method reject, and "consumeInput" makes the converter remove
    the file it has read. *)

Module Demo.

Fixpoint basename_from (s acc : string) : string :=
  match s with
  | EmptyString => acc
  | String c s' =>
      if Ascii.eqb c "/"%char then basename_from s' ""
      else basename_from s' (acc +:+ String c "")
  end.

Fixpoint dirname_opt (s : string) : option string :=
  match s with
  | EmptyString => None
  | String c s' =>
      match dirname_opt s' with
      | Some d => Some (String c d)
      | None => if Ascii.eqb c "/"%char then Some EmptyString else None
      end
  end.

Definition posix : PathModule := {|
  path_join := String.concat "/";
  path_basename := λ s, basename_from s "";
  path_dirname := λ s, default "." (dirname_opt s)
|}.

Record DemoStore := {
  demo_prunable : list LsifDump;
  demo_tip : option string;
  demo_commits : CommitGraph;
  demo_published : list Z;
  demo_faults : list string
}.

Definition faulty (name : string) (store : DemoStore) : bool :=
  bool_decide (name ∈ demo_faults store).

Definition demo_dbFilename (storageRoot : string) (id : Z)
    (repository commit : string) : string :=
  storageRoot +:+ "/dbs/" +:+ repository +:+ "@" +:+ commit +:+ ".lsif.db".

Definition demo_convertLsif (input output : string)
  : Ext DemoStore (list string * list string) :=
  λ '(fs, store),
    match files fs !! input with
    | None => (Throw (ENOENT "open" input), (fs, store))
    | Some size =>
        if faulty "convertLsif" store
        then (Throw (new_Error "invalid LSIF input"),
              ({| files := <[output := 1]> (files fs); dirs := dirs fs |}, store))
        else
          let written := <[output := 2 * size]> (files fs) in
          (Ok (["package"], ["reference"]),
           ({| files := if faulty "consumeInput" store
                        then delete input written else written;
               dirs := dirs fs |},
            store))
    end.

Definition demo_imports (quota : Z)
  : Imports DemoStore (list string) (list string) := {|
  path := posix;
  STORAGE_ROOT := "/lsif";
  DBS_DIR_MAXIMUM_SIZE_BYTES := quota;
  TEMP_DIR := "temp";
  DBS_DIR := "dbs";
  dbFilename := demo_dbFilename;
  convertLsif := demo_convertLsif
|}.

Definition rejecting {A} (method : string) (f : Ext DemoStore A) : Ext DemoStore A :=
  λ '(fs, store),
    if faulty method store
    then (Throw (new_Error (method +:+ " failed")), (fs, store))
    else f (fs, store).

Definition with_prunable (l : list LsifDump) (store : DemoStore) : DemoStore :=
  {| demo_prunable := l; demo_tip := demo_tip store;
     demo_commits := demo_commits store; demo_published := demo_published store;
     demo_faults := demo_faults store |}.

Definition with_commits (g : CommitGraph) (store : DemoStore) : DemoStore :=
  {| demo_prunable := demo_prunable store; demo_tip := demo_tip store;
     demo_commits := g; demo_published := demo_published store;
     demo_faults := demo_faults store |}.

Definition with_published (id : Z) (store : DemoStore) : DemoStore :=
  {| demo_prunable := demo_prunable store; demo_tip := demo_tip store;
     demo_commits := demo_commits store;
     demo_published := id :: demo_published store;
     demo_faults := demo_faults store |}.

Definition demo_dumpManager : DumpManager DemoStore := {|
  deleteOverlappingDumps := λ _ _ _,
    rejecting "deleteOverlappingDumps" (λ env, (Ok tt, env));
  discoverTip := λ _ _,
    rejecting "discoverTip" (λ '(fs, store), (Ok (demo_tip store), (fs, store)));
  discoverCommits := λ _ commit _,
    rejecting "discoverCommits" (λ env, (Ok {[ commit := {[ "c0" ]} ]}, env));
  updateCommits := λ _ commits,
    rejecting "updateCommits"
              (λ '(fs, store), (Ok tt, (fs, with_commits commits store)));
  updateDumpsVisibleFromTip := λ _ _,
    rejecting "updateDumpsVisibleFromTip" (λ env, (Ok tt, env));
  getOldestPrunableDump :=
    rejecting "getOldestPrunableDump"
              (λ '(fs, store), (Ok (head (demo_prunable store)), (fs, store)));
  deleteDump := λ dump,
    rejecting "deleteDump"
      (λ '(fs, store),
         (Ok tt,
          ({| files := delete (demo_dbFilename "/lsif" (dump_id dump)
                                 (dump_repository dump) (dump_commit dump))
                              (files fs);
              dirs := dirs fs |},
           with_prunable
             (filter (λ d, dump_id d ≠ dump_id dump) (demo_prunable store))
             store)))
|}.

Definition demo_dependencyManager
  : DependencyManager DemoStore (list string) (list string) := {|
  addPackagesAndReferences := λ id _ _,
    rejecting "addPackagesAndReferences"
              (λ '(fs, store), (Ok tt, (fs, with_published id store)))
|}.

Definition demo_entityManager : EntityManager :=
  {| connection := {| connection_name := "postgres" |} |}.

Definition demo_fetchConfiguration (_ : unit) : Configuration :=
  {| gitServers := ["gitserver:3178"] |}.

Definition demo_upload : LsifUpload := {|
  upload_id := 7;
  upload_repository := "mux";
  upload_commit := "c1";
  upload_root := "";
  upload_filename := "/lsif/uploads/u7"
|}.

Definition dumpA : LsifDump :=
  {| dump_id := 1; dump_repository := "r"; dump_commit := "a"; dump_root := "" |}.
Definition dumpB : LsifDump :=
  {| dump_id := 2; dump_repository := "r"; dump_commit := "b"; dump_root := "" |}.
Definition dumpC : LsifDump :=
  {| dump_id := 3; dump_repository := "r"; dump_commit := "c"; dump_root := "" |}.

(** Three databases of 600, 300 and 200 bytes and one pending upload. *)
Definition demo_fs : FS := {|
  files := {[ "/lsif/dbs/r@a.lsif.db" := 600;
              "/lsif/dbs/r@b.lsif.db" := 300;
              "/lsif/dbs/r@c.lsif.db" := 200;
              "/lsif/uploads/u7" := 50 ]};
  dirs := {[ "/lsif"; "/lsif/dbs"; "/lsif/temp"; "/lsif/uploads" ]}
|}.

Definition demo_store (tip : option string) (faults : list string) : DemoStore := {|
  demo_prunable := [dumpA; dumpB; dumpC];
  demo_tip := tip;
  demo_commits := ∅;
  demo_published := [];
  demo_faults := faults
|}.

Definition demo_world (faults : list string) : World DemoStore := {|
  world_fs := demo_fs;
  world_store := demo_store (Some "c2") faults;
  world_log := []
|}.

(** The repository has no tip. *)
Definition demo_world_without_tip : World DemoStore := {|
  world_fs := demo_fs;
  world_store := demo_store None [];
  world_log := []
|}.

(** The directory of databases has not been created. *)
Definition demo_world_without_dbs : World DemoStore := {|
  world_fs := {| files := {[ "/lsif/uploads/u7" := 50 ]};
                 dirs := {[ "/lsif"; "/lsif/temp"; "/lsif/uploads" ]} |};
  world_store := demo_store (Some "c2") [];
  world_log := []
|}.

(** The upload file has gone before the worker picks the upload up. *)
Definition demo_world_without_upload : World DemoStore := {|
  world_fs := {| files := ∅;
                 dirs := {[ "/lsif"; "/lsif/dbs"; "/lsif/temp"; "/lsif/uploads" ]} |};
  world_store := demo_store (Some "c2") [];
  world_log := []
|}.

(** Every dump is the last one visible for its repository: none is prunable. *)
Definition demo_world_nothing_prunable : World DemoStore := {|
  world_fs := demo_fs;
  world_store := with_prunable [] (demo_store (Some "c2") []);
  world_log := []
|}.

(** The file tree once the faulty converter has left a partial database. *)
Definition demo_fs_partial : FS := {|
  files := <[ "/lsif/temp/u7" := 1 ]> (files demo_fs);
  dirs := dirs demo_fs
|}.

End Demo.

(** ** Vocabulary of the further properties *)

(** The calls of [discoverCommits] that [updateCommitsAndDumpsVisibleFromTip]
    makes for a tip, in program order: from the processed commit, and from
    the tip when it is another commit. *)
Definition discoveries (upload : LsifUpload) (tipCommit : string)
  : list (bool → Event) :=
  EvDiscoverCommits (upload_repository upload) (upload_commit upload)
    :: (if decide (tipCommit ≠ upload_commit upload)
        then [EvDiscoverCommits (upload_repository upload) tipCommit]
        else []).

(** The sizes of the files directly inside [directory], added up. *)
Definition directory_total (path : PathModule) (directory : string) (fs : FS) : Z :=
  foldr (λ '(p, size) total,
           if decide (path_dirname path p = directory) then size + total else total)
        0 (map_to_list (files fs)).

(** [path.join(directory, path.basename(p))] gives back the path of every
    file of the tree that is directly inside [directory]. *)
Definition joins_back (path : PathModule) (directory : string) (fs : FS) : Prop :=
  map_Forall (λ p _, path_dirname path p = directory →
                     path_join path [directory; path_basename path p] = p)
             (files fs).

(** ** The thread mutations of the GraphQL resolver

    [CreateThread], [UpdateThread], [PublishPreviewThread] and
    [DeleteThread] of the Go package [threads].  What they call lives
    outside the file (the repository lookup, the comment actor, the
    [dbThreads] store, [threadByID], [newGQLThread] and the [IsPreview]
    method) and is a parameter, each call free to read and change the
    database and to fail.  A Go [error] is kept by its message, a pointer
    that may be [nil] is an [option], and the calls made are logged in
    order. *)

Module Threads.

Definition error : Type := string.

(** A Go result pair [(v, err)] with [err == nil] or not. *)
Inductive Returned (A : Type) :=
| Value (v : A)
| Failed (err : error).
Arguments Value {A} v.
Arguments Failed {A} err.

(** [arg.Input] of [CreateThreadArgs]. *)
Record CreateThreadInput := {
  create_Repository : string;
  create_Title : string;
  create_Body : option string;
  create_Preview : option bool;
  create_BaseRef : option string;
  create_HeadRef : option string
}.

(** [arg.Input] of [UpdateThreadArgs]. *)
Record UpdateThreadInput := {
  update_ID : string;
  update_Title : option string;
  update_BaseRef : option string;
  update_HeadRef : option string
}.

(** [dbThread], by the fields the resolvers set or read. *)
Record dbThread := {
  thread_ID : Z;
  thread_RepositoryID : Z;
  thread_Title : string;
  thread_State : string;
  thread_IsPreview : bool;
  thread_BaseRef : string;
  thread_HeadRef : string
}.

(** [dbThreadUpdate]: a field that is [nil] asks for no change. *)
Record dbThreadUpdate := {
  set_Title : option string;
  set_BaseRef : option string;
  set_HeadRef : option string;
  set_IsPreview : option bool
}.

Record DBObjectCommentFields := {
  AuthorUserID : Z;
  comment_Body : string
}.

Record gqlThread := { db : dbThread }.

Inductive Call :=
| CallRepositoryByID (id : string)
| CallCommentActorFromContext
| CallCreate (data : dbThread) (comment : DBObjectCommentFields)
| CallUpdate (id : Z) (update : dbThreadUpdate)
| CallDeleteByID (id : Z)
| CallThreadByID (id : string).

Record Backend (Ctx Database Repository : Type) := {
  RepositoryByID : Ctx → string → Database → Returned Repository * Database;
  DBID : Repository → Z;
  CommentActorFromContext : Ctx → Database → Returned Z * Database;
  dbThreads_Create :
    Ctx → dbThread → DBObjectCommentFields → Database → Returned dbThread * Database;
  dbThreads_Update :
    Ctx → Z → dbThreadUpdate → Database → Returned dbThread * Database;
  dbThreads_DeleteByID : Ctx → Z → Database → option error * Database;
  threadByID : Ctx → string → Database → Returned gqlThread * Database;
  newGQLThread : dbThread → gqlThread;
  IsPreview : gqlThread → bool;
  ThreadStateOpen : string
}.
Arguments RepositoryByID {Ctx Database Repository} _ _ _ _.
Arguments DBID {Ctx Database Repository} _ _.
Arguments CommentActorFromContext {Ctx Database Repository} _ _ _.
Arguments dbThreads_Create {Ctx Database Repository} _ _ _ _ _.
Arguments dbThreads_Update {Ctx Database Repository} _ _ _ _ _.
Arguments dbThreads_DeleteByID {Ctx Database Repository} _ _ _ _.
Arguments threadByID {Ctx Database Repository} _ _ _ _.
Arguments newGQLThread {Ctx Database Repository} _ _.
Arguments IsPreview {Ctx Database Repository} _ _.
Arguments ThreadStateOpen {Ctx Database Repository} _.

Record State (Database : Type) := {
  database : Database;
  calls : list Call
}.
Arguments database {Database} _.
Arguments calls {Database} _.

(** A Go function over the database that returns a value or an error. *)
Definition G (Database A : Type) : Type :=
  State Database → Returned A * State Database.

#[global] Instance G_ret {Database} : MRet (G Database) := λ A a st, (Value a, st).

(** [v, err := m; if err != nil { return nil, err }], then [k]. *)
#[global] Instance G_bind {Database} : MBind (G Database) := λ A B k m st,
  match m st with
  | (Value a, st') => k a st'
  | (Failed err, st') => (Failed err, st')
  end.

Definition fail {Database A} (err : error) : G Database A :=
  λ st, (Failed err, st).

Definition invoke {Database A} (call : Call)
    (f : Database → Returned A * Database) : G Database A :=
  λ st, let '(r, database') := f (database st) in
        (r, {| database := database'; calls := calls st ++ [call] |}).

(** A function that returns only an [error]. *)
Definition checked {Database} (f : Database → option error * Database)
  : Database → Returned unit * Database :=
  λ d, match f d with
       | (None, d') => (Value tt, d')
       | (Some err, d') => (Failed err, d')
       end.

(** [graphqlbackend.EmptyResponse] *)
Record EmptyResponse := { }.

Section resolvers.
Context {Ctx Database Repository : Type}.
Context (backend : Backend Ctx Database Repository).

Definition CreateThread (ctx : Ctx) (input : CreateThreadInput)
  : G Database gqlThread :=
  repo ← invoke (CallRepositoryByID (create_Repository input))
                (RepositoryByID backend ctx (create_Repository input));
  authorUserID ← invoke CallCommentActorFromContext
                        (CommentActorFromContext backend ctx);
  let comment :=
    {| AuthorUserID := authorUserID;
       comment_Body := match create_Body input with
                       | Some body => body
                       | None => ""
                       end |} in
  let data :=
    {| thread_ID := 0;
       thread_RepositoryID := DBID backend repo;
       thread_Title := create_Title input;
       thread_State := ThreadStateOpen backend;
       thread_IsPreview := match create_Preview input with
                           | Some preview => preview
                           | None => false
                           end;
       thread_BaseRef := match create_BaseRef input with
                         | Some ref => ref
                         | None => ""
                         end;
       thread_HeadRef := match create_HeadRef input with
                         | Some ref => ref
                         | None => ""
                         end |} in
  thread ← invoke (CallCreate data comment)
                  (dbThreads_Create backend ctx data comment);
  mret (newGQLThread backend thread).

Definition UpdateThread (ctx : Ctx) (input : UpdateThreadInput)
  : G Database gqlThread :=
  l ← invoke (CallThreadByID (update_ID input))
             (threadByID backend ctx (update_ID input));
  let update :=
    {| set_Title := update_Title input;
       set_BaseRef := update_BaseRef input;
       set_HeadRef := update_HeadRef input;
       set_IsPreview := None |} in
  thread ← invoke (CallUpdate (thread_ID (db l)) update)
                  (dbThreads_Update backend ctx (thread_ID (db l)) update);
  mret (newGQLThread backend thread).

Definition already_published : error :=
  "thread has already been published (and is not in preview)".

Definition PublishPreviewThread (ctx : Ctx) (thread : string)
  : G Database gqlThread :=
  l ← invoke (CallThreadByID thread) (threadByID backend ctx thread);
  if negb (IsPreview backend l) then fail already_published
  else
    let v := false in
    let update :=
      {| set_Title := None; set_BaseRef := None; set_HeadRef := None;
         set_IsPreview := Some v |} in
    thread ← invoke (CallUpdate (thread_ID (db l)) update)
                    (dbThreads_Update backend ctx (thread_ID (db l)) update);
    mret (newGQLThread backend thread).

Definition DeleteThread (ctx : Ctx) (thread : string)
  : G Database (option EmptyResponse) :=
  gqlThread ← invoke (CallThreadByID thread) (threadByID backend ctx thread);
  invoke (CallDeleteByID (thread_ID (db gqlThread)))
         (checked (dbThreads_DeleteByID backend ctx (thread_ID (db gqlThread))));;
  mret None.
End resolvers.

(** *** A small backend

    The table of threads is a list; thread "thread-N" has identifier N,
    the only repository is "repo-1", and the context carries the actor. *)

Definition demo_thread_key (id : string) : option Z :=
  if String.eqb id "thread-1" then Some 1
  else if String.eqb id "thread-2" then Some 2
  else None.

Definition demo_apply (update : dbThreadUpdate) (t : dbThread) : dbThread :=
  {| thread_ID := thread_ID t;
     thread_RepositoryID := thread_RepositoryID t;
     thread_Title := default (thread_Title t) (set_Title update);
     thread_State := thread_State t;
     thread_IsPreview := default (thread_IsPreview t) (set_IsPreview update);
     thread_BaseRef := default (thread_BaseRef t) (set_BaseRef update);
     thread_HeadRef := default (thread_HeadRef t) (set_HeadRef update) |}.

Definition demo_find (id : Z) (table : list dbThread) : option dbThread :=
  head (filter (λ t, thread_ID t = id) table).

Definition demo_backend : Backend (option Z) (list dbThread) Z := {|
  RepositoryByID := λ _ id table,
    (if String.eqb id "repo-1" then Value 1 else Failed "repo not found", table);
  DBID := λ repo, repo;
  CommentActorFromContext := λ ctx table,
    (match ctx with
     | Some actor => Value actor
     | None => Failed "no current user"
     end, table);
  dbThreads_Create := λ _ data _ table,
    let created :=
      {| thread_ID := 1 + Z.of_nat (length table);
         thread_RepositoryID := thread_RepositoryID data;
         thread_Title := thread_Title data;
         thread_State := thread_State data;
         thread_IsPreview := thread_IsPreview data;
         thread_BaseRef := thread_BaseRef data;
         thread_HeadRef := thread_HeadRef data |} in
    (Value created, table ++ [created]);
  dbThreads_Update := λ _ id update table,
    match demo_find id table with
    | Some t =>
        (Value (demo_apply update t),
         (λ t', if decide (thread_ID t' = id) then demo_apply update t' else t')
           <$> table)
    | None => (Failed "thread not found", table)
    end;
  dbThreads_DeleteByID := λ _ id table,
    match demo_find id table with
    | Some _ => (None, filter (λ t, thread_ID t ≠ id) table)
    | None => (Some "thread not found", table)
    end;
  threadByID := λ _ id table,
    (match demo_thread_key id ≫= λ key, demo_find key table with
     | Some t => Value {| db := t |}
     | None => Failed "thread not found"
     end, table);
  newGQLThread := λ t, {| db := t |};
  IsPreview := λ l, thread_IsPreview (db l);
  ThreadStateOpen := "OPEN"
|}.

Definition demo_thread (id : Z) (preview : bool) : dbThread :=
  {| thread_ID := id; thread_RepositoryID := 1; thread_Title := "Fix the build";
     thread_State := "OPEN"; thread_IsPreview := preview;
     thread_BaseRef := "refs/heads/master"; thread_HeadRef := "refs/heads/fix" |}.

(** Thread 1 is published, thread 2 is a preview. *)
Definition demo_state : State (list dbThread) :=
  {| database := [demo_thread 1 false; demo_thread 2 true]; calls := [] |}.

End Threads.

(* ================================================================== *)
(** * Part II: theorems *)
(* ================================================================== *)

Section commit_graph.
Implicit Types a b c commits tipCommits : CommitGraph.

Lemma mergeTipCommits_spec commits tipCommits :
  mergeTipCommits commits tipCommits = mergeSpec commits tipCommits.
Proof.
  unfold mergeTipCommits, mergeSpec.
  apply (map_fold_weak_ind
           (λ r m, r = union_with (λ x y, Some (x ∪ y)) commits m)).
  - by rewrite (right_id ∅ _).
  - intros k v m r Hk ->. apply map_eq; intros j.
    unfold mergeEntry, parents.
    destruct (decide (k = j)) as [<-|Hne].
    + rewrite lookup_insert_eq, !lookup_union_with, Hk, lookup_insert_eq.
      destruct (commits !! k); simpl; [done|].
      f_equal. set_solver.
    + rewrite lookup_insert_ne by done.
      by rewrite !lookup_union_with, lookup_insert_ne by done.
Qed.

Lemma lookup_mergeTipCommits a b k :
  mergeTipCommits a b !! k =
    if decide (k ∈ dom a ∪ dom b) then Some (parents a k ∪ parents b k)
    else None.
Proof.
  rewrite mergeTipCommits_spec. unfold mergeSpec, parents.
  rewrite lookup_union_with.
  destruct (a !! k) as [x|] eqn:Ha, (b !! k) as [y|] eqn:Hb; simpl.
  - rewrite decide_True; [done|].
    apply elem_of_union_l, elem_of_dom; eauto.
  - rewrite decide_True; [f_equal; set_solver|].
    apply elem_of_union_l, elem_of_dom; eauto.
  - rewrite decide_True; [f_equal; set_solver|].
    apply elem_of_union_r, elem_of_dom; eauto.
  - rewrite decide_False; [done|].
    rewrite elem_of_union, !elem_of_dom, Ha, Hb.
    intros [[? ?]|[? ?]]; discriminate.
Qed.

Lemma mergeTipCommits_comm a b : mergeTipCommits a b = mergeTipCommits b a.
Proof.
  apply map_eq; intros k. rewrite !lookup_mergeTipCommits.
  rewrite (comm_L (∪) (dom a)), (comm_L (∪) (parents a k)). done.
Qed.

Lemma mergeTipCommits_assoc a b c :
  mergeTipCommits (mergeTipCommits a b) c =
  mergeTipCommits a (mergeTipCommits b c).
Proof.
  rewrite !mergeTipCommits_spec. unfold mergeSpec.
  apply map_eq; intros k. rewrite !lookup_union_with.
  destruct (a !! k), (b !! k), (c !! k); simpl; try done.
  f_equal. set_solver.
Qed.

(** C5: the merge that [updateCommitsAndDumpsVisibleFromTip] performs maps
    every key of either fragment to the union of the parent sets the two
    fragments give it, and no other key; it is commutative, so merging
    the fragment of the processed commit with that of the tip gives the
    same graph in either order, and associative. *)
Theorem mergeTipCommits_union_comm_assoc a b c :
  (∀ k, mergeTipCommits a b !! k =
          if decide (k ∈ dom a ∪ dom b) then Some (parents a k ∪ parents b k)
          else None) ∧
  mergeTipCommits a b = mergeTipCommits b a ∧
  mergeTipCommits (mergeTipCommits a b) c = mergeTipCommits a (mergeTipCommits b c).
Proof.
  split; [intros k; apply lookup_mergeTipCommits|].
  split; [apply mergeTipCommits_comm|apply mergeTipCommits_assoc].
Qed.
End commit_graph.


(** ** Schedules of two workers under an advisory lock *)

Section schedules.
Implicit Types (l : list (nat * Event)) (trace body : list Event).

Lemma interleaving_nil_l {A} (l2 l : list A) : interleaving [] l2 l → l = l2.
Proof.
  revert l. induction l2 as [|x l2 IH]; intros l H; inversion H; subst; [done|].
  f_equal. by apply IH.
Qed.

Lemma interleaving_sym {A} (l1 l2 l : list A) :
  interleaving l1 l2 l → interleaving l2 l1 l.
Proof. induction 1; by constructor. Qed.

(** An event that is not about a lock neither needs nor changes it. *)
Lemma lock_respected_skip name holder t ev l :
  is_lock_event ev = false →
  lock_respected name holder ((t, ev) :: l) = lock_respected name holder l.
Proof. by destruct ev. Qed.

(** While [a] holds the lock and [b] must take it to start, the rest of
    [a]'s critical section runs before anything of [b]. *)
Lemma holder_runs_first name a b body rest l :
  Forall (λ ev, is_lock_event ev = false) body →
  interleaving (tagged a (body ++ [EvLockRelease name]))
               (tagged b (EvLockAcquire name :: rest)) l →
  lock_respected name (Some a) l = true →
  l = tagged a (body ++ [EvLockRelease name])
        ++ tagged b (EvLockAcquire name :: rest).
Proof.
  intros Hbody. revert l.
  induction Hbody as [|ev body Hev _ IH]; intros l Hl Hlock; simpl in *.
  - inversion Hl as [|x l1 l2 l' Hl'|x l1 l2 l' Hl']; subst.
    + apply interleaving_nil_l in Hl' as ->. done.
    + simpl in Hlock. by rewrite decide_True in Hlock.
  - inversion Hl as [|x l1 l2 l' Hl'|x l1 l2 l' Hl']; subst.
    + rewrite lock_respected_skip in Hlock by done. f_equal. by apply IH.
    + simpl in Hlock. by rewrite decide_True in Hlock.
Qed.

(** Two critical sections on the same lock cannot overlap: a schedule
    that respects the lock runs one worker's section, then the other's. *)
Lemma critical_sections_serial name a b body1 body2 l :
  Forall (λ ev, is_lock_event ev = false) body1 →
  Forall (λ ev, is_lock_event ev = false) body2 →
  interleaving (tagged a (critical_section name body1))
               (tagged b (critical_section name body2)) l →
  lock_respected name None l = true →
  l = tagged a (critical_section name body1) ++ tagged b (critical_section name body2) ∨
  l = tagged b (critical_section name body2) ++ tagged a (critical_section name body1).
Proof.
  intros Hbody1 Hbody2 Hl Hlock. unfold critical_section in *. simpl in Hl.
  inversion Hl as [|x l1 l2 l' Hl'|x l1 l2 l' Hl']; subst;
    simpl in Hlock; rewrite decide_True in Hlock by done.
  - left. simpl. f_equal.
    by apply (holder_runs_first name a b body1 (body2 ++ [EvLockRelease name])).
  - right. simpl. f_equal.
    apply (holder_runs_first name b a body2 (body1 ++ [EvLockRelease name]));
      [done| |done].
    by apply interleaving_sym.
Qed.
End schedules.

(** ** The worker *)

Ltac unfold_calls :=
  unfold call_convertLsif, call_deleteOverlappingDumps,
    call_addPackagesAndReferences, call_discoverTip, call_discoverCommits,
    call_updateCommits, call_updateDumpsVisibleFromTip,
    call_getOldestPrunableDump, call_deleteDump,
    stat, unlink, rename, readdir, logger_info, logger_warn in *.

Ltac unfold_monad :=
  unfold completes, try_catch, throw, emit, syscall, external, record_event,
    env_of, mbind, M_bind, MF_bind, mret, M_ret, MF_ret in *.

Section worker_facts.
Context {Store Packages References : Type}.
Context (imports : Imports Store Packages References).
Context (entityManager : EntityManager).
Context (dumpManager : DumpManager Store).
Context (dependencyManager : DependencyManager Store Packages References).
Implicit Types (upload : LsifUpload) (w : World Store) (error : Error).

(** *** convertDatabase *)

(** A failing step makes the [try] block throw what the step threw. *)
Lemma convertDatabase_try_fails upload w error w1 :
  conversion_fails imports dumpManager dependencyManager upload w error w1 →
  convertDatabase_try imports dumpManager dependencyManager upload w
    = (Throw error, w1).
Proof.
  destruct 1 as [env1 H1|p r env1 env2 H1 H2|p r env1 env2 env3 H1 H2 H3
                |p r env1 env2 env3 fs4 H1 H2 H3 H4];
    unfold convertDatabase_try; unfold_calls; unfold_monad; rewrite H1; simpl.
  - destruct env1; done.
  - destruct env1 as [fs1 st1]; simpl. rewrite H2. destruct env2; simpl.
    unfold rejected_at; simpl. by rewrite <-!app_assoc.
  - destruct env1 as [fs1 st1]; simpl. rewrite H2. destruct env2; simpl.
    rewrite H3. destruct env3; simpl.
    unfold rejected_at; simpl. by rewrite <-!app_assoc.
  - destruct env1 as [fs1 st1]; simpl. rewrite H2. destruct env2; simpl.
    rewrite H3. destruct env3; simpl in *. rewrite H4; simpl.
    unfold rejected_at; simpl. by rewrite <-!app_assoc.
Qed.

(** The [try] block throws only when one of the four steps fails. *)
Lemma convertDatabase_try_Throw upload w error w1 :
  convertDatabase_try imports dumpManager dependencyManager upload w
    = (Throw error, w1) →
  conversion_fails imports dumpManager dependencyManager upload w error w1.
Proof.
  intros Htry.
  destruct (convertLsif imports (upload_filename upload) (tempFile imports upload)
              (env_of w)) as [[[packages references]|e1] env1] eqn:H1.
  2:{ rewrite (convertDatabase_try_fails upload w e1 _ (converter_fails _ _ _ _ _ _ _ H1))
        in Htry. injection Htry as <- <-. by constructor. }
  destruct (deleteOverlappingDumps dumpManager (upload_repository upload)
              (upload_commit upload) (upload_root upload) env1)
    as [[[]|e2] env2] eqn:H2.
  2:{ rewrite (convertDatabase_try_fails upload w e2 _
                 (overlap_deletion_fails _ _ _ _ _ _ _ _ _ _ H1 H2)) in Htry.
      injection Htry as <- <-. by econstructor. }
  destruct (addPackagesAndReferences dependencyManager (upload_id upload)
              packages references env2) as [[[]|e3] env3] eqn:H3.
  2:{ rewrite (convertDatabase_try_fails upload w e3 _
                 (dependency_insert_fails _ _ _ _ _ _ _ _ _ _ _ H1 H2 H3)) in Htry.
      injection Htry as <- <-. by econstructor. }
  destruct (fs_rename (path imports) (tempFile imports upload)
              (finalFile imports upload) env3.1) as [[[]|e4] fs4] eqn:H4.
  2:{ rewrite (convertDatabase_try_fails upload w e4 _
                 (rename_fails _ _ _ _ _ _ _ _ _ _ _ _ H1 H2 H3 H4)) in Htry.
      injection Htry as <- <-. by econstructor. }
  exfalso. revert Htry.
  unfold convertDatabase_try. unfold_calls. unfold_monad. rewrite H1; simpl.
  destruct env1; simpl. rewrite H2. destruct env2; simpl. rewrite H3.
  destruct env3; simpl in *. by rewrite H4.
Qed.

(** When the [try] block resolves, its four calls have resolved in turn. *)
Lemma convertDatabase_try_Ok upload w w1 :
  convertDatabase_try imports dumpManager dependencyManager upload w = (Ok tt, w1) →
  ∃ packages references env1 env2 env3 fs4,
    convertLsif imports (upload_filename upload) (tempFile imports upload) (env_of w)
      = (Ok (packages, references), env1) ∧
    deleteOverlappingDumps dumpManager (upload_repository upload)
      (upload_commit upload) (upload_root upload) env1 = (Ok tt, env2) ∧
    addPackagesAndReferences dependencyManager (upload_id upload) packages references
      env2 = (Ok tt, env3) ∧
    fs_rename (path imports) (tempFile imports upload) (finalFile imports upload) env3.1
      = (Ok tt, fs4) ∧
    w1 = {| world_fs := fs4; world_store := env3.2;
            world_log := world_log w ++ completed (pipeline imports upload)
                           ++ [EvLogInfo "Created dump"] |}.
Proof.
  unfold convertDatabase_try. unfold_calls. unfold_monad.
  destruct (convertLsif _ _ _ _) as [[[packages references]|e1] [fs1 st1]] eqn:H1;
    simpl; [|done].
  destruct (deleteOverlappingDumps _ _ _ _ _) as [[[]|e2] [fs2 st2]] eqn:H2;
    simpl; [|done].
  destruct (addPackagesAndReferences _ _ _ _ _) as [[[]|e3] [fs3 st3]] eqn:H3;
    simpl; [|done].
  destruct (fs_rename _ _ _ _) as [[[]|e4] fs4] eqn:H4; simpl; [|done].
  intros [= <-]. eexists _, _, _, _, _, _. repeat (split; [eassumption|]).
  simpl. by rewrite <-!app_assoc.
Qed.

Lemma unlink_present filename w size :
  files (world_fs w) !! filename = Some size →
  unlink filename w =
    (Ok tt, {| world_fs := {| files := delete filename (files (world_fs w));
                              dirs := dirs (world_fs w) |};
               world_store := world_store w;
               world_log := world_log w ++ [EvUnlink filename true] |}).
Proof. intros H. unfold unlink, syscall, fs_unlink. by rewrite H. Qed.

Lemma unlink_absent filename w :
  files (world_fs w) !! filename = None →
  unlink filename w =
    (Throw (ENOENT "unlink" filename), record_event (EvUnlink filename false) w).
Proof. intros H. unfold unlink, syscall, fs_unlink. by rewrite H. Qed.

(** [convertDatabase] by the outcome of its [try] block. *)
Lemma convertDatabase_unfold upload w :
  convertDatabase imports entityManager dumpManager dependencyManager upload w =
    match convertDatabase_try imports dumpManager dependencyManager upload w with
    | (Ok _, w1) => unlink (upload_filename upload) w1
    | (Throw error, w1) =>
        match unlink (tempFile imports upload) w1 with
        | (Ok _, w2) => (Throw error, w2)
        | (Throw error', w2) => (Throw error', w2)
        end
    end.
Proof.
  unfold convertDatabase, convertDatabase_catch. unfold_monad.
  destruct (convertDatabase_try _ _ _ _ _) as [[[]|e] w1]; [done|].
  by destruct (unlink _ w1) as [[[]|e'] w2].
Qed.


(** C9: when the converter fails and no file is at the temp path as the
    [catch] block runs, the cleanup [unlink] throws, and [convertDatabase]
    throws that file-system error in place of the converter's. *)
Theorem convertDatabase_cleanup_error_wins upload w error env1 :
  convertLsif imports (upload_filename upload) (tempFile imports upload) (env_of w)
    = (Throw error, env1) →
  files env1.1 !! tempFile imports upload = None →
  convertDatabase imports entityManager dumpManager dependencyManager upload w =
    (Throw (ENOENT "unlink" (tempFile imports upload)),
     record_event (EvUnlink (tempFile imports upload) false)
                  (rejected_at imports upload 0 w env1)).
Proof.
  intros Hconv Htemp.
  rewrite convertDatabase_unfold.
  rewrite (convertDatabase_try_fails _ _ _ _ (converter_fails _ _ _ _ _ _ _ Hconv)).
  by rewrite unlink_absent.
Qed.

(** C10: when the four steps have resolved, the last of them the rename
    to the final path, and the removal of the upload source file then
    fails, [convertDatabase] throws, and so does [convertUpload]; the
    store is as [addPackagesAndReferences] left it, the database is at its
    final path, and the log ends with the failed removal: the [catch]
    block has not run. *)
Theorem convertDatabase_throws_after_publishing
    fuel fetchConfiguration upload w packages references env1 env2 env3 fs4
    error fs5 :
  convertLsif imports (upload_filename upload) (tempFile imports upload) (env_of w)
    = (Ok (packages, references), env1) →
  deleteOverlappingDumps dumpManager (upload_repository upload)
    (upload_commit upload) (upload_root upload) env1 = (Ok tt, env2) →
  addPackagesAndReferences dependencyManager (upload_id upload) packages references
    env2 = (Ok tt, env3) →
  fs_rename (path imports) (tempFile imports upload) (finalFile imports upload) env3.1
    = (Ok tt, fs4) →
  fs_unlink (upload_filename upload) fs4 = (Throw error, fs5) →
  let w' := {| world_fs := fs4;
               world_store := env3.2;
               world_log :=
                 world_log w ++ completed (pipeline imports upload)
                   ++ [EvLogInfo "Created dump";
                       EvUnlink (upload_filename upload) false] |} in
  convertDatabase imports entityManager dumpManager dependencyManager upload w
    = (Throw error, w') ∧
  convertUpload imports fuel entityManager dumpManager dependencyManager
                fetchConfiguration upload w = Some (Throw error, w') ∧
  is_Some (files (world_fs w') !! finalFile imports upload) ∧
  fs5 = fs4.
Proof.
  intros H1 H2 H3 H4 H5 w'.
  assert (convertDatabase imports entityManager dumpManager dependencyManager upload w
          = (Throw error, w')) as Hrun.
  { unfold convertDatabase, convertDatabase_try, convertDatabase_catch.
    unfold_calls. unfold_monad. rewrite H1; simpl.
    destruct env1; simpl. rewrite H2. destruct env2; simpl. rewrite H3.
    destruct env3; simpl in *. rewrite H4; simpl. rewrite H5; simpl.
    unfold w'. f_equal. f_equal.
    - unfold fs_unlink in H5. destruct (files fs4 !! _); by injection H5.
    - by rewrite <-!app_assoc. }
  split; [done|]. split.
  { unfold convertUpload. unfold_monad. by rewrite Hrun. }
  split.
  - simpl. unfold fs_rename in H4.
    destruct (files env3.1 !! _) as [size|]; [|done].
    case_decide; [|done]. injection H4 as <-. simpl.
    rewrite lookup_insert_eq. eauto.
  - unfold fs_unlink in H5. destruct (files fs4 !! _); by injection H5.
Qed.

(** C6: the log of every run of [convertDatabase] follows the program
    order: the converter, then [deleteOverlappingDumps], then
    [addPackagesAndReferences], then the rename, each having resolved
    before the next is called, then the removal of the upload source file;
    a run that stops early has the first calls resolved in that order, the
    next one rejected, and the cleanup.  In every run a call of
    [addPackagesAndReferences] comes after a resolved
    [deleteOverlappingDumps]. *)
Theorem convertDatabase_order upload w :
  ∃ trace,
    world_log (convertDatabase imports entityManager dumpManager dependencyManager
                               upload w).2 = world_log w ++ trace ∧
    ((∃ ok,
        trace = completed (pipeline imports upload)
                  ++ [EvLogInfo "Created dump"; EvUnlink (upload_filename upload) ok] ∧
        succeeded (convertDatabase imports entityManager dumpManager
                                   dependencyManager upload w).1 = ok) ∨
     (∃ n ok,
        (n < 4)%nat ∧
        trace = completed (take n (pipeline imports upload))
                  ++ ((λ step, step false) <$> take 1 (drop n (pipeline imports upload)))
                  ++ [EvUnlink (tempFile imports upload) ok] ∧
        succeeded (convertDatabase imports entityManager dumpManager
                                   dependencyManager upload w).1 = false)) ∧
    (∀ i id ok,
       trace !! i = Some (EvAddPackagesAndReferences id ok) →
       ∃ j, (j < i)%nat ∧
            trace !! j = Some (EvDeleteOverlappingDumps (upload_repository upload)
                                 (upload_commit upload) (upload_root upload) true)).
Proof.
  rewrite convertDatabase_unfold.
  destruct (convertDatabase_try imports dumpManager dependencyManager upload w)
    as [[[]|error] w1] eqn:Htry.
  - apply convertDatabase_try_Ok in Htry
      as (packages & references & env1 & env2 & env3 & fs4 & _ & _ & _ & _ & ->).
    set (ok := bool_decide (is_Some (files fs4 !! upload_filename upload))).
    exists (completed (pipeline imports upload)
              ++ [EvLogInfo "Created dump"; EvUnlink (upload_filename upload) ok]).
    assert (unlink (upload_filename upload)
              {| world_fs := fs4; world_store := env3.2;
                 world_log := world_log w ++ completed (pipeline imports upload)
                                ++ [EvLogInfo "Created dump"] |}
            = (if ok then Ok tt else Throw (ENOENT "unlink" (upload_filename upload)),
               {| world_fs := if ok
                              then {| files := delete (upload_filename upload) (files fs4);
                                      dirs := dirs fs4 |}
                              else fs4;
                  world_store := env3.2;
                  world_log := (world_log w ++ completed (pipeline imports upload)
                                ++ [EvLogInfo "Created dump"])
                               ++ [EvUnlink (upload_filename upload) ok] |})) as ->.
    { unfold ok. destruct (files fs4 !! upload_filename upload) as [size|] eqn:Hsrc.
      - by erewrite unlink_present.
      - by rewrite unlink_absent. }
    simpl. split; [by rewrite <-!app_assoc|]. split.
    + left. exists ok. split; [done|]. by destruct ok.
    + intros i id b Hi. exists 1%nat. unfold completed, pipeline in Hi.
      destruct i as [|[|[|[|[|[|i]]]]]]; simpl in Hi; try done.
      split; [lia|done].
  - apply convertDatabase_try_Throw in Htry.
    set (temp := tempFile imports upload).
    assert (∀ w1, ∃ ok,
               succeeded (match unlink temp w1 with
                          | (Ok _, w2) => (@Throw unit error, w2)
                          | (Throw error', w2) => (Throw error', w2)
                          end).1 = false ∧
               world_log (match unlink temp w1 with
                          | (Ok _, w2) => (@Throw unit error, w2)
                          | (Throw error', w2) => (Throw error', w2)
                          end).2 = world_log w1 ++ [EvUnlink temp ok]) as Hcatch.
    { intros w0. destruct (files (world_fs w0) !! temp) as [size|] eqn:Htemp.
      - exists true. by erewrite unlink_present.
      - exists false. by rewrite unlink_absent. }
    destruct Htry as [env1 _|p r env1 env2 _ _|p r env1 env2 env3 _ _ _
                     |p r env1 env2 env3 fs4 _ _ _ _];
      match goal with
      | |- context [rejected_at _ _ ?n _ ?env] =>
          destruct (Hcatch (rejected_at imports upload n w env)) as (ok & Hr & Hlog);
          exists (completed (take n (pipeline imports upload))
                    ++ ((λ step, step false) <$> take 1 (drop n (pipeline imports upload)))
                    ++ [EvUnlink temp ok]);
          rewrite Hlog; simpl;
          (split; [by rewrite <-!app_assoc|]);
          (split; [right; exists n, ok; split; [lia|done]|])
      end;
      intros i id b Hi; exists 1%nat; unfold completed, pipeline in Hi;
      destruct i as [|[|[|[|[|[|i]]]]]]; simpl in Hi; try done;
      (split; [lia|done]).
Qed.

(** *** updateCommitsAndDumpsVisibleFromTip *)

(** C4: when [discoverTip] returns [undefined],
    [updateCommitsAndDumpsVisibleFromTip] throws the "no tip" error; the
    only call it has made is [discoverTip], so the file tree and the store
    are as that call left them and no commit is written. *)
Theorem no_tip_aborts fetchConfiguration upload w env1 :
  discoverTip dumpManager (upload_repository upload)
              (gitServers (fetchConfiguration tt)) (env_of w) = (Ok None, env1) →
  updateCommitsAndDumpsVisibleFromTip dumpManager fetchConfiguration upload w =
    (Throw (new_Error "No tip commit available for repository"),
     {| world_fs := env1.1;
        world_store := env1.2;
        world_log := world_log w ++ [EvDiscoverTip (upload_repository upload) true] |}).
Proof.
  intros Htip. unfold updateCommitsAndDumpsVisibleFromTip.
  unfold_calls. unfold_monad. rewrite Htip. by destruct env1.
Qed.

(** *** purgeOldDumps *)

(** C8: with a negative [maximumSizeBytes], [purgeOldDumps] resolves at
    once and leaves the world as it was: the log gains no event, so the
    lock is not taken, the directory is not read and nothing is deleted. *)
Theorem purgeOldDumps_negative_quota fuel connection storageRoot maximumSizeBytes w :
  maximumSizeBytes < 0 →
  purgeOldDumps imports fuel connection dumpManager storageRoot maximumSizeBytes w
    = Some (Ok tt, w).
Proof. intros Hneg. unfold purgeOldDumps. by rewrite decide_True. Qed.

(** A missing file counts for nothing, and [filesize] resolves. *)
Lemma filesize_spec filename w :
  filesize filename w =
    (Ok (default 0 (files (world_fs w) !! filename)),
     record_event
       (EvStat filename (bool_decide (is_Some (files (world_fs w) !! filename)))) w).
Proof.
  unfold filesize. unfold_calls. unfold_monad. unfold fs_stat.
  by destruct (files (world_fs w) !! filename) as [size|].
Qed.

Lemma mapM_filesize (g : string → string) filenames w :
  ∃ sizes trace,
    mapM (λ filename, filesize (g filename)) filenames w =
      (Ok sizes, {| world_fs := world_fs w; world_store := world_store w;
                    world_log := world_log w ++ trace |}) ∧
    Forall (λ ev, is_fs_read ev = true) trace.
Proof.
  revert w. induction filenames as [|filename filenames IH]; intros w; simpl.
  - exists [], []. rewrite app_nil_r. by destruct w.
  - unfold mbind at 1, M_bind. rewrite filesize_spec.
    destruct (IH (record_event
                    (EvStat (g filename)
                       (bool_decide (is_Some (files (world_fs w) !! g filename)))) w))
      as (sizes & trace & Hrun & Hreads).
    unfold mbind, M_bind. rewrite Hrun. simpl.
    eexists _, (_ :: trace). rewrite <-app_assoc. split; [done|].
    by constructor.
Qed.

(** Measuring a directory reads the file tree and changes nothing. *)
Lemma dirsize_run directory w r w' :
  dirsize imports directory w = (r, w') →
  env_of w' = env_of w ∧
  ∃ ok stats, world_log w' = world_log w ++ EvReaddir directory ok :: stats ∧
              Forall (λ ev, is_fs_read ev = true) stats.
Proof.
  unfold dirsize. unfold_calls. unfold mbind at 1, M_bind, syscall, fs_readdir.
  case_decide; simpl.
  - match goal with
    | |- context [(mapM ?f ?l ≫= _) ?w0] =>
        destruct (mapM_filesize
                    (λ filename, path_join (path imports) [directory; filename]) l w0)
          as (sizes & trace & Hrun & Hreads)
    end.
    unfold mbind, M_bind. rewrite Hrun. simpl. intros [= <- <-]. split; [done|].
    simpl. exists true, trace. by rewrite <-app_assoc.
  - intros [= <- <-]. split; [done|]. by exists false, [].
Qed.

#[local] Arguments filesize : simpl never.

(** The three ways in which one turn of the loop body ends. *)
Lemma purge_body_cases storageRoot maximumSizeBytes currentSizeBytes w :
  (∃ error env1,
     getOldestPrunableDump dumpManager (env_of w) = (Throw error, env1) ∧
     purge_body imports dumpManager storageRoot maximumSizeBytes currentSizeBytes w =
       (Throw error,
        {| world_fs := env1.1; world_store := env1.2;
           world_log := world_log w ++ [EvGetOldestPrunableDump (Throw error)] |})) ∨
  (∃ env1,
     getOldestPrunableDump dumpManager (env_of w) = (Ok None, env1) ∧
     purge_body imports dumpManager storageRoot maximumSizeBytes currentSizeBytes w =
       (Ok Break,
        {| world_fs := env1.1; world_store := env1.2;
           world_log := world_log w ++
             [EvGetOldestPrunableDump (Ok None);
              EvLogWarn purge_warning currentSizeBytes maximumSizeBytes] |})) ∨
  (∃ dump env1 deleted env2 found,
     getOldestPrunableDump dumpManager (env_of w) = (Ok (Some dump), env1) ∧
     deleteDump dumpManager dump env1 = (deleted, env2) ∧
     purge_body imports dumpManager storageRoot maximumSizeBytes currentSizeBytes w =
       (match deleted with
        | Ok _ =>
            Ok (Continue
                  (currentSizeBytes -
                   default 0 (files env1.1 !!
                                dbFilename imports storageRoot (dump_id dump)
                                  (dump_repository dump) (dump_commit dump))))
        | Throw error => Throw error
        end,
        {| world_fs := env2.1; world_store := env2.2;
           world_log := world_log w ++
             [EvGetOldestPrunableDump (Ok (Some dump));
              EvLogInfo "Pruning dump";
              EvStat (dbFilename imports storageRoot (dump_id dump)
                        (dump_repository dump) (dump_commit dump)) found;
              EvDeleteDump dump (succeeded deleted)] |})).
Proof.
  destruct (getOldestPrunableDump dumpManager (env_of w))
    as [[[dump|]|error] [fs1 st1]] eqn:Hget;
    unfold purge_body; unfold_calls; unfold_monad; rewrite Hget; simpl.
  - right; right. rewrite filesize_spec; simpl.
    destruct (deleteDump dumpManager dump (fs1, st1)) as [[[]|error] [fs2 st2]] eqn:Hdel;
      eexists dump, (fs1, st1), _, (fs2, st2), _;
      (split; [done|]); (split; [exact Hdel|]); simpl;
      by rewrite <-!app_assoc.
  - right; left. exists (fs1, st1). split; [done|].
    by rewrite <-!app_assoc.
  - left. by exists error, (fs1, st1).
Qed.

Lemma iterations_app trace1 trace2 :
  iterations (trace1 ++ trace2) = (iterations trace1 + iterations trace2)%nat.
Proof. unfold iterations. by rewrite filter_app, length_app. Qed.

(** What a run of the loop that returns has logged and computed. *)
Lemma purge_loop_run fuel storageRoot maximumSizeBytes currentSizeBytes w r w' :
  purge_loop imports fuel dumpManager storageRoot maximumSizeBytes currentSizeBytes w
    = Some (r, w') →
  ∃ trace,
    world_log w' = world_log w ++ trace ∧
    Forall (λ ev, is_lock_event ev = false) trace ∧
    (iterations trace ≤ fuel)%nat ∧
    (∀ total, r = Ok total → Forall (λ ev, is_warning ev = false) trace →
              total ≤ maximumSizeBytes) ∧
    (EvGetOldestPrunableDump (Ok None) ∈ trace →
     ∃ pre total,
       r = Ok total ∧ maximumSizeBytes < total ∧
       trace = pre ++ [EvGetOldestPrunableDump (Ok None);
                       EvLogWarn purge_warning total maximumSizeBytes]).
Proof.
  assert (∀ fuel currentSizeBytes w,
            ¬ currentSizeBytes > maximumSizeBytes →
            Some (Ok currentSizeBytes, w) = Some (r, w') →
            ∃ trace,
              world_log w' = world_log w ++ trace ∧
              Forall (λ ev, is_lock_event ev = false) trace ∧
              (iterations trace ≤ fuel)%nat ∧
              (∀ total, r = Ok total → Forall (λ ev, is_warning ev = false) trace →
                        total ≤ maximumSizeBytes) ∧
              (EvGetOldestPrunableDump (Ok None) ∈ trace →
               ∃ pre total,
                 r = Ok total ∧ maximumSizeBytes < total ∧
                 trace = pre ++ [EvGetOldestPrunableDump (Ok None);
                                 EvLogWarn purge_warning total maximumSizeBytes]))
    as Hexit.
  { intros fuel0 size0 w0 Hunder [= <- <-]. exists [].
    rewrite app_nil_r. repeat split; try done.
    - unfold iterations; simpl; lia.
    - intros total [= <-] _; lia.
    - by intros ?%elem_of_nil. }
  revert currentSizeBytes w.
  induction fuel as [|fuel IH]; intros currentSizeBytes w; simpl;
    (case_decide as Hover; [|by apply Hexit]); [done|].
  destruct (purge_body_cases storageRoot maximumSizeBytes currentSizeBytes w)
    as [(error & env1 & _ & ->)
       |[(env1 & _ & ->)
        |(dump & env1 & deleted & env2 & found & _ & _ & ->)]].
  - intros [= <- <-]. eexists [_]. simpl. repeat split; try done.
    + by repeat constructor.
    + unfold iterations; simpl; lia.
    + by intros [=]%list_elem_of_singleton.
  - intros [= <- <-]. eexists [_; _]. simpl. repeat split; try done.
    + by repeat constructor.
    + unfold iterations; simpl; lia.
    + intros total _ Hquiet. apply Forall_cons_1 in Hquiet as [_ Hquiet].
      by apply Forall_cons_1 in Hquiet as [[=] _].
    + intros _. exists [], currentSizeBytes. repeat split; try done. lia.
  - destruct deleted as [[]|error].
    + intros (trace & Hlog & Hlock & Hiter & Hquota & Hnone)%IH. simpl in Hlog.
      eexists (_ :: _ :: _ :: _ :: trace). rewrite Hlog, <-app_assoc. simpl.
      split; [done|]. split; [by repeat constructor|]. split.
      { change (?a :: ?b :: ?c :: ?d :: trace) with ([a; b; c; d] ++ trace).
        rewrite iterations_app. unfold iterations at 1; simpl. lia. }
      split.
      { intros total Hr Hquiet. apply Hquota; [done|].
        by do 4 apply Forall_cons_1 in Hquiet as [_ Hquiet]. }
      intros Hin. do 4 (apply elem_of_cons in Hin as [[=]|Hin]).
      destruct (Hnone Hin) as (pre & total & -> & Hover' & ->).
      eexists (_ :: _ :: _ :: _ :: pre), total. done.
    + intros [= <- <-]. eexists [_; _; _; _]. simpl. repeat split; try done.
      * by repeat constructor.
      * unfold iterations; simpl; lia.
      * intros Hin. do 4 (apply elem_of_cons in Hin as [[=]|Hin]).
        by apply elem_of_nil in Hin.
Qed.

(** With [N] dumps to hand out and none after them, [N + 1] turns are
    enough, and more fuel changes nothing. *)
Lemma purge_loop_returns N storageRoot maximumSizeBytes currentSizeBytes w :
  dumps_then_none dumpManager N (env_of w) →
  ∃ res,
    ∀ fuel, (N < fuel)%nat →
            purge_loop imports fuel dumpManager storageRoot maximumSizeBytes
                       currentSizeBytes w = Some res.
Proof.
  revert currentSizeBytes w.
  induction N as [|N IH]; intros currentSizeBytes w Hdumps;
    (destruct (decide (currentSizeBytes > maximumSizeBytes)) as [Hover|Hunder];
     [|exists (Ok currentSizeBytes, w); intros [|fuel] ?; simpl;
       by rewrite decide_False]);
    destruct (purge_body_cases storageRoot maximumSizeBytes currentSizeBytes w)
      as [(error & env1 & Hget & Hbody)
         |[(env1 & Hget & Hbody)
          |(dump & env1 & deleted & env2 & found & Hget & Hdel & Hbody)]];
    simpl in Hdumps.
  - destruct Hdumps as (env' & Hnone). by rewrite Hnone in Hget.
  - eexists. intros [|fuel] ?; [lia|]. simpl. by rewrite decide_True, Hbody.
  - destruct Hdumps as (env' & Hnone). by rewrite Hnone in Hget.
  - destruct Hdumps as (dump' & env1' & Hsome & _). by rewrite Hsome in Hget.
  - destruct Hdumps as (dump' & env1' & Hsome & _). by rewrite Hsome in Hget.
  - destruct Hdumps as (dump' & env1' & Hsome & Hnext).
    rewrite Hsome in Hget. injection Hget as <- <-.
    destruct deleted as [[]|error].
    + specialize (Hnext _ Hdel). destruct env2 as [fs2 st2].
      match type of Hbody with
      | _ = (Ok (Continue ?c), ?w2) => destruct (IH c w2 Hnext) as (res & Hres)
      end.
      exists res. intros [|fuel] ?; [lia|]. simpl.
      rewrite decide_True, Hbody by done. apply Hres. lia.
    + eexists. intros [|fuel] ?; [lia|]. simpl. by rewrite decide_True, Hbody.
Qed.

(** C7: when [getOldestPrunableDump] hands out a dump on each of its first
    [N] calls and none after them, the purge loop returns within [N + 1]
    turns of its body, whatever the directory size and the quota: run
    with fuel for [N + 1] turns it returns, its log shows at most [N + 1]
    turns, and more fuel gives the same result. *)
Theorem purge_loop_terminates N storageRoot maximumSizeBytes currentSizeBytes w :
  dumps_then_none dumpManager N (env_of w) →
  ∃ r w' trace,
    purge_loop imports (S N) dumpManager storageRoot maximumSizeBytes
               currentSizeBytes w = Some (r, w') ∧
    world_log w' = world_log w ++ trace ∧
    (iterations trace ≤ S N)%nat ∧
    ∀ fuel, (S N ≤ fuel)%nat →
            purge_loop imports fuel dumpManager storageRoot maximumSizeBytes
                       currentSizeBytes w = Some (r, w').
Proof.
  intros Hdumps.
  destruct (purge_loop_returns N storageRoot maximumSizeBytes currentSizeBytes w Hdumps)
    as ([r w'] & Hres).
  destruct (purge_loop_run (S N) storageRoot maximumSizeBytes currentSizeBytes w r w')
    as (trace & Hlog & _ & Hiter & _); [apply Hres; lia|].
  exists r, w', trace. split; [apply Hres; lia|]. split; [done|].
  split; [done|]. intros fuel ?. apply Hres. lia.
Qed.

Lemma fs_reads_not_lock trace :
  Forall (λ ev, is_fs_read ev = true) trace →
  Forall (λ ev, is_lock_event ev = false) trace.
Proof. intros Hreads. eapply Forall_impl; [done|]. by intros []. Qed.

Lemma fs_reads_not_getOldest trace answer :
  Forall (λ ev, is_fs_read ev = true) trace →
  EvGetOldestPrunableDump answer ∉ trace.
Proof.
  intros Hreads Hin. rewrite Forall_forall in Hreads. by apply Hreads in Hin.
Qed.

(** What a run of the inner [purge] that returns has logged and computed. *)
Lemma purge_total_run fuel storageRoot maximumSizeBytes w r w' :
  purge_total imports fuel dumpManager storageRoot maximumSizeBytes w = Some (r, w') →
  ∃ trace,
    world_log w' = world_log w ++ trace ∧
    Forall (λ ev, is_lock_event ev = false) trace ∧
    (∀ total, r = Ok total → Forall (λ ev, is_warning ev = false) trace →
              total ≤ maximumSizeBytes) ∧
    (EvGetOldestPrunableDump (Ok None) ∈ trace →
     ∃ pre total,
       r = Ok total ∧ maximumSizeBytes < total ∧
       trace = pre ++ [EvGetOldestPrunableDump (Ok None);
                       EvLogWarn purge_warning total maximumSizeBytes]) ∧
    (∃ ok rest,
       trace = EvReaddir (path_join (path imports) [storageRoot; DBS_DIR imports]) ok
                 :: rest).
Proof.
  unfold purge_total, completes, mbind, MF_bind.
  destruct (dirsize imports _ w) as [[currentSizeBytes|error] w1] eqn:Hsize;
    apply dirsize_run in Hsize as (_ & ok & stats & Hlog1 & Hstats);
    remember (EvReaddir (path_join (path imports) [storageRoot; DBS_DIR imports]) ok
                :: stats) as measured eqn:Hmeasured;
    assert (Forall (λ ev, is_fs_read ev = true) measured) as Hreads
      by (subst measured; by constructor).
  - intros (trace & Hlog & Hlock & _ & Hquota & Hnone)%purge_loop_run.
    exists (measured ++ trace). rewrite Hlog, Hlog1, <-app_assoc.
    split; [done|]. split; [apply Forall_app; eauto using fs_reads_not_lock|].
    split; [|split].
    + intros total Hr [_ Hquiet]%Forall_app. by apply Hquota.
    + intros [Hin|Hin]%elem_of_app; [by apply fs_reads_not_getOldest in Hin|].
      destruct (Hnone Hin) as (pre & total & -> & Hover & ->).
      exists (measured ++ pre), total. by rewrite <-app_assoc.
    + subst measured. by eexists _, _.
  - intros [= <- <-]. exists measured.
    split; [done|]. split; [by apply fs_reads_not_lock|]. split; [done|].
    split; [intros Hin; by apply fs_reads_not_getOldest in Hin|].
    subst measured. by eexists _, _.
Qed.

(** [purgeOldDumps] with a quota is the inner [purge] between taking and
    giving back the lock "retention". *)
Lemma purgeOldDumps_run fuel connection storageRoot maximumSizeBytes w r w' :
  0 ≤ maximumSizeBytes →
  purgeOldDumps imports fuel connection dumpManager storageRoot maximumSizeBytes w
    = Some (r, w') →
  ∃ r1 w1,
    purge_total imports fuel dumpManager storageRoot maximumSizeBytes
                (record_event (EvLockAcquire "retention") w) = Some (r1, w1) ∧
    w' = record_event (EvLockRelease "retention") w1 ∧
    r = match r1 with Ok _ => Ok tt | Throw error => Throw error end.
Proof.
  intros Hquota. unfold purgeOldDumps, withLock, purge.
  rewrite decide_False by lia. unfold mbind, MF_bind, mret, MF_ret.
  destruct (purge_total _ _ _ _ _ _) as [[[total|error] w1]|]; [| |done];
    intros [= <- <-]; by eexists _, _.
Qed.


(** C3: every call that [purgeOldDumps] makes with a non-negative quota,
    from the reading of the directory, which comes first, to the last
    deletion, is logged between taking and giving back the lock
    "retention", and nothing is logged outside; so a schedule of two such
    invocations that respects the lock is one invocation's calls followed
    by the other's, with no interleaving of their size checks and
    deletions. *)
Theorem purgeOldDumps_under_lock
    fuel1 fuel2 connection storageRoot maximumSizeBytes w1 w2 r1 r2 w1' w2' :
  0 ≤ maximumSizeBytes →
  purgeOldDumps imports fuel1 connection dumpManager storageRoot maximumSizeBytes w1
    = Some (r1, w1') →
  purgeOldDumps imports fuel2 connection dumpManager storageRoot maximumSizeBytes w2
    = Some (r2, w2') →
  ∃ body1 body2,
    world_log w1' = world_log w1 ++ critical_section "retention" body1 ∧
    world_log w2' = world_log w2 ++ critical_section "retention" body2 ∧
    (∃ ok rest,
       body1 = EvReaddir (path_join (path imports) [storageRoot; DBS_DIR imports]) ok
                 :: rest) ∧
    (∃ ok rest,
       body2 = EvReaddir (path_join (path imports) [storageRoot; DBS_DIR imports]) ok
                 :: rest) ∧
    Forall (λ ev, is_lock_event ev = false) body1 ∧
    Forall (λ ev, is_lock_event ev = false) body2 ∧
    ∀ a b l,
      interleaving (tagged a (critical_section "retention" body1))
                   (tagged b (critical_section "retention" body2)) l →
      lock_respected "retention" None l = true →
      l = tagged a (critical_section "retention" body1)
            ++ tagged b (critical_section "retention" body2) ∨
      l = tagged b (critical_section "retention" body2)
            ++ tagged a (critical_section "retention" body1).
Proof.
  intros Hquota Hrun1 Hrun2.
  destruct (purgeOldDumps_run _ _ _ _ _ _ _ Hquota Hrun1) as (? & v1 & Htotal1 & -> & _).
  destruct (purgeOldDumps_run _ _ _ _ _ _ _ Hquota Hrun2) as (? & v2 & Htotal2 & -> & _).
  destruct (purge_total_run _ _ _ _ _ _ Htotal1)
    as (body1 & Hlog1 & Hlock1 & _ & _ & Hfirst1).
  destruct (purge_total_run _ _ _ _ _ _ Htotal2)
    as (body2 & Hlog2 & Hlock2 & _ & _ & Hfirst2).
  exists body1, body2. simpl in *. rewrite Hlog1, Hlog2. unfold critical_section at 1 2.
  split; [by rewrite <-!app_assoc|]. split; [by rewrite <-!app_assoc|].
  split; [done|]. split; [done|]. split; [done|]. split; [done|].
  intros a b l. by apply critical_sections_serial.
Qed.

(** With [N] dumps to hand out and none after them, [purgeOldDumps] itself
    returns when run with fuel for [N + 1] turns. *)
Lemma purgeOldDumps_returns N connection storageRoot maximumSizeBytes w :
  dumps_then_none dumpManager N (env_of w) →
  ∃ res,
    purgeOldDumps imports (S N) connection dumpManager storageRoot
                  maximumSizeBytes w = Some res.
Proof.
  intros Hdumps. unfold purgeOldDumps. case_decide; [by eexists|].
  unfold withLock, purge, purge_total, completes, mbind, MF_bind, mret, MF_ret.
  destruct (dirsize imports _ _) as [[currentSizeBytes|error] w1] eqn:Hsize;
    [|by eexists].
  apply dirsize_run in Hsize as [Henv _].
  destruct (purge_loop_returns N storageRoot maximumSizeBytes currentSizeBytes w1)
    as ([[total|error] w2] & Hres); [by rewrite Henv| |];
    rewrite Hres by lia; by eexists.
Qed.

(** When the tip is another commit than the processed one, the graph
    handed to [updateCommits] is the merge of the two fragments. *)
Lemma updateCommits_receives_merge
    fetchConfiguration upload w tipCommit env1 commits env2 tipCommits env3 :
  discoverTip dumpManager (upload_repository upload)
              (gitServers (fetchConfiguration tt)) (env_of w)
    = (Ok (Some tipCommit), env1) →
  tipCommit ≠ upload_commit upload →
  discoverCommits dumpManager (upload_repository upload) (upload_commit upload)
                  (gitServers (fetchConfiguration tt)) env1 = (Ok commits, env2) →
  discoverCommits dumpManager (upload_repository upload) tipCommit
                  (gitServers (fetchConfiguration tt)) env2 = (Ok tipCommits, env3) →
  ∃ ok rest,
    world_log (updateCommitsAndDumpsVisibleFromTip dumpManager fetchConfiguration
                                                   upload w).2 =
      world_log w ++
        [EvDiscoverTip (upload_repository upload) true;
         EvDiscoverCommits (upload_repository upload) (upload_commit upload) true;
         EvDiscoverCommits (upload_repository upload) tipCommit true;
         EvUpdateCommits (upload_repository upload)
                         (mergeTipCommits commits tipCommits) ok] ++ rest.
Proof.
  intros Htip Hne Hcommits HtipCommits.
  unfold updateCommitsAndDumpsVisibleFromTip. unfold_calls. unfold_monad.
  rewrite Htip. destruct env1 as [fs1 st1]; simpl. rewrite Hcommits.
  destruct env2 as [fs2 st2]; simpl. rewrite decide_True by done; simpl.
  rewrite HtipCommits. destruct env3 as [fs3 st3]; simpl.
  destruct (updateCommits dumpManager _ _ _) as [[[]|error] [fs4 st4]]; simpl.
  - destruct (updateDumpsVisibleFromTip dumpManager _ _ _) as [r [fs5 st5]]; simpl.
    exists true, [EvUpdateDumpsVisibleFromTip (upload_repository upload) tipCommit
                    (succeeded r)].
    destruct r; simpl; by rewrite <-!app_assoc.
  - exists false, []. simpl. by rewrite <-!app_assoc.
Qed.
End worker_facts.

(** ** The theorems on the small deployment *)

Import Demo.

(** The scenario of the specification: a quota of 1000 bytes and databases
    of 600, 300 and 200 bytes, the oldest first.  The purge deletes the
    first only and ends with a running total of 500. *)
Example purge_scenario :
  ∃ w',
    purge_total (demo_imports 1000) 4 demo_dumpManager "/lsif" 1000 (demo_world [])
      = Some (Ok 500, w') ∧
    files (world_fs w') !! "/lsif/dbs/r@a.lsif.db" = None ∧
    files (world_fs w') !! "/lsif/dbs/r@b.lsif.db" = Some 300 ∧
    files (world_fs w') !! "/lsif/dbs/r@c.lsif.db" = Some 200 ∧
    iterations (world_log w') = 1%nat.
Proof. eexists. split; [vm_compute; reflexivity|]. by vm_compute. Qed.

(** The same quota when no dump is prunable: the purge warns about the 1100
    bytes it cannot reduce, deletes nothing and resolves. *)
Example purge_without_candidate :
  ∃ w',
    purgeOldDumps (demo_imports 1000) 4 (connection demo_entityManager)
                  demo_dumpManager "/lsif" 1000 demo_world_nothing_prunable
      = Some (Ok tt, w') ∧
    world_fs w' = demo_fs ∧
    world_log w' =
      [EvLockAcquire "retention";
       EvReaddir "/lsif/dbs" true;
       EvStat "/lsif/dbs/r@c.lsif.db" true;
       EvStat "/lsif/dbs/r@a.lsif.db" true;
       EvStat "/lsif/dbs/r@b.lsif.db" true;
       EvGetOldestPrunableDump (Ok None);
       EvLogWarn purge_warning 1100 1000;
       EvLockRelease "retention"].
Proof. eexists. split; [vm_compute; reflexivity|]. by vm_compute. Qed.

(** A full run of [convertUpload] on the deployment. *)
Example convertUpload_scenario :
  ∃ w',
    convertUpload (demo_imports 1000) 4 demo_entityManager demo_dumpManager
                  demo_dependencyManager demo_fetchConfiguration demo_upload
                  (demo_world []) = Some (Ok tt, w') ∧
    files (world_fs w') !! "/lsif/dbs/mux@c1.lsif.db" = Some 100 ∧
    files (world_fs w') !! "/lsif/uploads/u7" = None ∧
    files (world_fs w') !! "/lsif/temp/u7" = None ∧
    demo_commits (world_store w') = {[ "c1" := {[ "c0" ]}; "c2" := {[ "c0" ]} ]} ∧
    demo_published (world_store w') = [7].
Proof. eexists. split; [vm_compute; reflexivity|]. by vm_compute. Qed.

(** Each of the four steps can be the one that fails with the temp file on
    disk: the converter after writing a partial database, the overlap
    deletion, the insert into the dependency store, and the rename when the
    directory of databases is missing. *)
Example conversion_can_fail_at_each_step :
  let imports := demo_imports 1000 in
  let temp_left w :=
    ∃ error w1,
      conversion_fails imports demo_dumpManager demo_dependencyManager demo_upload
                       w error w1 ∧
      is_Some (files (world_fs w1) !! "/lsif/temp/u7") in
  temp_left (demo_world ["convertLsif"]) ∧
  temp_left (demo_world ["deleteOverlappingDumps"]) ∧
  temp_left (demo_world ["addPackagesAndReferences"]) ∧
  temp_left demo_world_without_dbs.
Proof.
  intros imports temp_left. unfold temp_left. repeat split.
  - eexists _, _. split; [by eapply converter_fails|]. vm_compute. eauto.
  - eexists _, _. split; [by eapply overlap_deletion_fails|]. vm_compute. eauto.
  - eexists _, _. split; [by eapply dependency_insert_fails|]. vm_compute. eauto.
  - eexists _, _. split; [by eapply rename_fails|]. vm_compute. eauto.
Qed.


(** The upload file is missing, the converter rejects without writing
    anything, and what [convertDatabase] throws is the error of the
    cleanup. *)
Lemma convertDatabase_cleanup_error_wins_witness :
  let imports := demo_imports 1000 in
  let w := demo_world_without_upload in
  convertLsif imports (upload_filename demo_upload) (tempFile imports demo_upload)
              (env_of w) = (Throw (ENOENT "open" "/lsif/uploads/u7"), env_of w) ∧
  files (env_of w).1 !! tempFile imports demo_upload = None ∧
  convertDatabase imports demo_entityManager demo_dumpManager demo_dependencyManager
                  demo_upload w =
    (Throw (ENOENT "unlink" (tempFile imports demo_upload)),
     record_event (EvUnlink (tempFile imports demo_upload) false)
                  (rejected_at imports demo_upload 0 w (env_of w))).
Proof.
  intros imports w.
  assert (convertLsif imports (upload_filename demo_upload)
            (tempFile imports demo_upload) (env_of w)
          = (Throw (ENOENT "open" "/lsif/uploads/u7"), env_of w)) as Hconv.
  { vm_compute. reflexivity. }
  assert (files (env_of w).1 !! tempFile imports demo_upload = None) as Htemp.
  { vm_compute. reflexivity. }
  split; [exact Hconv|]. split; [exact Htemp|].
  exact (convertDatabase_cleanup_error_wins imports demo_entityManager
           demo_dumpManager demo_dependencyManager demo_upload w _ _ Hconv Htemp).
Defined.

(** The converter removes the file it has read: the database is published,
    and the removal of the upload file fails. *)
Lemma convertDatabase_throws_after_publishing_witness :
  let imports := demo_imports 1000 in
  let w := demo_world ["consumeInput"] in
  ∃ w',
    convertDatabase imports demo_entityManager demo_dumpManager
                    demo_dependencyManager demo_upload w
      = (Throw (ENOENT "unlink" "/lsif/uploads/u7"), w') ∧
    convertUpload imports 4 demo_entityManager demo_dumpManager
                  demo_dependencyManager demo_fetchConfiguration demo_upload w
      = Some (Throw (ENOENT "unlink" "/lsif/uploads/u7"), w') ∧
    files (world_fs w') !! "/lsif/dbs/mux@c1.lsif.db" = Some 100 ∧
    demo_published (world_store w') = [7].
Proof.
  intros imports w.
  set (fs1 := {| files := delete "/lsif/uploads/u7"
                            (<[ "/lsif/temp/u7" := 100 ]> (files demo_fs));
                 dirs := dirs demo_fs |}).
  set (fs4 := {| files := <[ "/lsif/dbs/mux@c1.lsif.db" := 100 ]>
                            (delete "/lsif/temp/u7" (files fs1));
                 dirs := dirs demo_fs |}).
  set (store := demo_store (Some "c2") ["consumeInput"]).
  destruct (convertDatabase_throws_after_publishing imports demo_entityManager
              demo_dumpManager demo_dependencyManager 4 demo_fetchConfiguration
              demo_upload w ["package"] ["reference"]
              (fs1, store) (fs1, store) (fs1, with_published 7 store) fs4
              (ENOENT "unlink" "/lsif/uploads/u7") fs4)
    as (Hrun & Hupload & Hfinal & _);
    try (vm_compute; reflexivity).
  eexists. split; [exact Hrun|]. split; [exact Hupload|].
  split; vm_compute; reflexivity.
Defined.

(** The repository has no tip. *)
Lemma no_tip_aborts_witness :
  let w := demo_world_without_tip in
  discoverTip demo_dumpManager (upload_repository demo_upload)
              (gitServers (demo_fetchConfiguration tt)) (env_of w)
    = (Ok None, env_of w) ∧
  updateCommitsAndDumpsVisibleFromTip demo_dumpManager demo_fetchConfiguration
                                      demo_upload w =
    (Throw (new_Error "No tip commit available for repository"),
     {| world_fs := world_fs w;
        world_store := world_store w;
        world_log := [EvDiscoverTip "mux" true] |}).
Proof.
  intros w.
  assert (discoverTip demo_dumpManager (upload_repository demo_upload)
            (gitServers (demo_fetchConfiguration tt)) (env_of w)
          = (Ok None, env_of w)) as Htip.
  { vm_compute. reflexivity. }
  split; [exact Htip|].
  exact (no_tip_aborts demo_dumpManager demo_fetchConfiguration demo_upload w _ Htip).
Defined.

(** No quota. *)
Lemma purgeOldDumps_negative_quota_witness :
  -1 < 0 ∧
  purgeOldDumps (demo_imports (-1)) 4 (connection demo_entityManager)
                demo_dumpManager "/lsif" (-1) (demo_world [])
    = Some (Ok tt, demo_world []).
Proof.
  split; [lia|]. apply purgeOldDumps_negative_quota. lia.
Defined.


(** Three prunable dumps: the loop returns within four turns. *)
Lemma purge_loop_terminates_witness :
  dumps_then_none demo_dumpManager 3 (env_of (demo_world [])) ∧
  ∃ r w' trace,
    purge_loop (demo_imports 0) 4 demo_dumpManager "/lsif" 0 1100 (demo_world [])
      = Some (r, w') ∧
    world_log w' = world_log (demo_world []) ++ trace ∧
    (iterations trace ≤ 4)%nat ∧
    ∀ fuel, (4 ≤ fuel)%nat →
            purge_loop (demo_imports 0) fuel demo_dumpManager "/lsif" 0 1100
                       (demo_world []) = Some (r, w').
Proof.
  assert (dumps_then_none demo_dumpManager 3 (env_of (demo_world []))) as Hdumps.
  { simpl. eexists _, _. split; [vm_compute; reflexivity|].
    intros env2 Hdel. vm_compute in Hdel. injection Hdel as <-.
    eexists _, _. split; [vm_compute; reflexivity|].
    intros env3 Hdel. vm_compute in Hdel. injection Hdel as <-.
    eexists _, _. split; [vm_compute; reflexivity|].
    intros env4 Hdel. vm_compute in Hdel. injection Hdel as <-.
    eexists. vm_compute. reflexivity. }
  split; [exact Hdumps|].
  exact (purge_loop_terminates (demo_imports 0) demo_dumpManager 3 "/lsif" 0 1100
           (demo_world []) Hdumps).
Defined.

(** Two purges of the deployment, one of which finds the store rejecting. *)
Lemma purgeOldDumps_under_lock_witness :
  ∃ r1 r2 w1' w2',
    0 ≤ 1000 ∧
    purgeOldDumps (demo_imports 1000) 4 (connection demo_entityManager)
                  demo_dumpManager "/lsif" 1000 (demo_world [])
      = Some (r1, w1') ∧
    purgeOldDumps (demo_imports 1000) 4 (connection demo_entityManager)
                  demo_dumpManager "/lsif" 1000 (demo_world ["deleteDump"])
      = Some (r2, w2') ∧
    ∃ body1 body2,
      world_log w1' = world_log (demo_world []) ++ critical_section "retention" body1 ∧
      world_log w2' = world_log (demo_world ["deleteDump"])
                        ++ critical_section "retention" body2 ∧
      (∃ ok rest, body1 = EvReaddir "/lsif/dbs" ok :: rest) ∧
      (∃ ok rest, body2 = EvReaddir "/lsif/dbs" ok :: rest) ∧
      Forall (λ ev, is_lock_event ev = false) body1 ∧
      Forall (λ ev, is_lock_event ev = false) body2 ∧
      ∀ a b l,
        interleaving (tagged a (critical_section "retention" body1))
                     (tagged b (critical_section "retention" body2)) l →
        lock_respected "retention" None l = true →
        l = tagged a (critical_section "retention" body1)
              ++ tagged b (critical_section "retention" body2) ∨
        l = tagged b (critical_section "retention" body2)
              ++ tagged a (critical_section "retention" body1).
Proof.
  eexists _, _, _, _. split; [lia|].
  assert (0 ≤ 1000) as Hquota by lia.
  split; [vm_compute; reflexivity|]. split; [vm_compute; reflexivity|].
  eapply (purgeOldDumps_under_lock (demo_imports 1000) demo_dumpManager 4 4
           (connection demo_entityManager) "/lsif" 1000
           (demo_world []) (demo_world ["deleteDump"]));
    [exact Hquota|vm_compute; reflexivity|vm_compute; reflexivity].
Defined.

(** The log of a conversion that goes through. *)
Lemma convertDatabase_order_witness :
  let imports := demo_imports 1000 in
  let run := convertDatabase imports demo_entityManager demo_dumpManager
                             demo_dependencyManager demo_upload (demo_world []) in
  run.1 = Ok tt ∧
  ∃ trace,
    world_log run.2 = world_log (demo_world []) ++ trace ∧
    ((∃ ok,
        trace = completed (pipeline imports demo_upload)
                  ++ [EvLogInfo "Created dump";
                      EvUnlink (upload_filename demo_upload) ok] ∧
        succeeded run.1 = ok) ∨
     (∃ n ok,
        (n < 4)%nat ∧
        trace = completed (take n (pipeline imports demo_upload))
                  ++ ((λ step, step false) <$> take 1 (drop n (pipeline imports demo_upload)))
                  ++ [EvUnlink (tempFile imports demo_upload) ok] ∧
        succeeded run.1 = false)) ∧
    (∀ i id ok,
       trace !! i = Some (EvAddPackagesAndReferences id ok) →
       ∃ j, (j < i)%nat ∧
            trace !! j = Some (EvDeleteOverlappingDumps (upload_repository demo_upload)
                                 (upload_commit demo_upload) (upload_root demo_upload)
                                 true)).
Proof.
  intros imports run. split; [vm_compute; reflexivity|].
  exact (convertDatabase_order imports demo_entityManager demo_dumpManager
           demo_dependencyManager demo_upload (demo_world [])).
Defined.

(* ================================================================== *)
(** * Part III: further properties of the worker *)
(* ================================================================== *)

Section commit_graph_more.
Implicit Types a b commits tipCommits : CommitGraph.

(** X1: merging a fragment with itself or with an empty fragment changes
    nothing, and a merge loses no key and no parent of either fragment. *)
Theorem mergeTipCommits_idemp_empty_grows a b :
  mergeTipCommits a a = a ∧
  mergeTipCommits a ∅ = a ∧
  mergeTipCommits ∅ b = b ∧
  dom (mergeTipCommits a b) = dom a ∪ dom b ∧
  (∀ k, parents a k ⊆ parents (mergeTipCommits a b) k) ∧
  (∀ k, parents b k ⊆ parents (mergeTipCommits a b) k).
Proof.
  assert (∀ k, parents a k ∪ parents b k = parents (mergeTipCommits a b) k) as Hparents.
  { intros k. unfold parents at 3. rewrite lookup_mergeTipCommits.
    case_decide as Hk; [done|]. simpl.
    rewrite not_elem_of_union, !not_elem_of_dom in Hk. destruct Hk as [Ha Hb].
    unfold parents. rewrite Ha, Hb. set_solver. }
  split; [|split; [|split; [|split; [|split]]]].
  - apply map_eq; intros k. rewrite lookup_mergeTipCommits. unfold parents.
    destruct (a !! k) as [x|] eqn:Hk; simpl.
    + rewrite decide_True by (apply elem_of_union_l, elem_of_dom; eauto).
      f_equal. set_solver.
    + rewrite decide_False; [done|].
      rewrite elem_of_union, elem_of_dom, Hk. by intros [[??]|[??]].
  - rewrite mergeTipCommits_spec. unfold mergeSpec. by rewrite (right_id ∅ _).
  - rewrite mergeTipCommits_spec. unfold mergeSpec. by rewrite (left_id ∅ _).
  - apply set_eq; intros k. rewrite elem_of_dom, lookup_mergeTipCommits.
    case_decide; [split; [done|eauto]|split; [by intros [??]|done]].
  - intros k. rewrite <-Hparents. set_solver.
  - intros k. rewrite <-Hparents. set_solver.
Qed.
End commit_graph_more.

Section worker_more_facts.
Context {Store Packages References : Type}.
Context (imports : Imports Store Packages References).
Context (entityManager : EntityManager).
Context (dumpManager : DumpManager Store).
Context (dependencyManager : DependencyManager Store Packages References).
Implicit Types (upload : LsifUpload) (w : World Store) (error : Error).

(** *** convertDatabase *)

(** X2: whatever happens in [convertDatabase], no file is left at the temp
    path when it returns, provided the final path is another path than the
    temp path: a resolved rename has moved the file, and after a failure
    the [catch] block has removed it if it was there. *)
Theorem convertDatabase_leaves_no_temp_file upload w :
  tempFile imports upload ≠ finalFile imports upload →
  files (world_fs (convertDatabase imports entityManager dumpManager
                                   dependencyManager upload w).2)
    !! tempFile imports upload = None.
Proof.
  intros Hdistinct. rewrite convertDatabase_unfold.
  destruct (convertDatabase_try imports dumpManager dependencyManager upload w)
    as [[[]|error] w1] eqn:Htry.
  - apply convertDatabase_try_Ok in Htry
      as (packages & references & env1 & env2 & env3 & fs4 & _ & _ & _ & Hrename & ->).
    assert (files fs4 !! tempFile imports upload = None) as Hmoved.
    { unfold fs_rename in Hrename.
      destruct (files env3.1 !! tempFile imports upload) as [size|]; [|done].
      case_decide; [|done]. injection Hrename as <-. simpl.
      rewrite lookup_insert_ne by done. apply lookup_delete_eq. }
    destruct (files fs4 !! upload_filename upload) as [size|] eqn:Hsource.
    + erewrite unlink_present by done. simpl.
      by apply lookup_delete_None; right.
    + by rewrite unlink_absent.
  - destruct (files (world_fs w1) !! tempFile imports upload) as [size|] eqn:Htemp.
    + erewrite unlink_present by done. simpl. apply lookup_delete_eq.
    + by rewrite unlink_absent.
Qed.

(** X3: when [convertDatabase] resolves, its four calls have resolved in
    order and the upload file has been removed last; no file is at the path
    of the upload any more, and, when the final path is another path than
    that of the upload, the database is at its final path. *)
Theorem convertDatabase_resolved upload w w' :
  convertDatabase imports entityManager dumpManager dependencyManager upload w
    = (Ok tt, w') →
  world_log w' =
    world_log w ++ completed (pipeline imports upload)
      ++ [EvLogInfo "Created dump"; EvUnlink (upload_filename upload) true] ∧
  files (world_fs w') !! upload_filename upload = None ∧
  (finalFile imports upload ≠ upload_filename upload →
   is_Some (files (world_fs w') !! finalFile imports upload)).
Proof.
  rewrite convertDatabase_unfold.
  destruct (convertDatabase_try imports dumpManager dependencyManager upload w)
    as [[[]|error] w1] eqn:Htry.
  2:{ by destruct (unlink (tempFile imports upload) w1) as [[[]|?] ?]. }
  apply convertDatabase_try_Ok in Htry
    as (packages & references & env1 & env2 & env3 & fs4 & _ & _ & _ & Hrename & ->).
  destruct (files fs4 !! upload_filename upload) as [size|] eqn:Hsource.
  2:{ by rewrite unlink_absent. }
  erewrite unlink_present by done. intros [= <-]. simpl.
  split; [by rewrite <-!app_assoc|]. split; [apply lookup_delete_eq|].
  intros Hfinal. rewrite lookup_delete_ne by done.
  unfold fs_rename in Hrename.
  destruct (files env3.1 !! tempFile imports upload) as [moved|]; [|done].
  case_decide; [|done]. injection Hrename as <-. simpl.
  rewrite lookup_insert_eq. eauto.
Qed.

(** X4: an upload whose file is stored at the temp path itself loses that
    file when a step of the conversion fails: the cleanup of the [catch]
    block removes the path it was given as temp path, which is the path of
    the upload. *)
Theorem convertDatabase_upload_at_temp_path upload w error w1 :
  upload_filename upload = tempFile imports upload →
  conversion_fails imports dumpManager dependencyManager upload w error w1 →
  files (world_fs (convertDatabase imports entityManager dumpManager
                                   dependencyManager upload w).2)
    !! upload_filename upload = None.
Proof.
  intros Hsame Hfails.
  rewrite convertDatabase_unfold, (convertDatabase_try_fails _ _ _ _ _ _ _ Hfails).
  rewrite Hsame.
  destruct (files (world_fs w1) !! tempFile imports upload) as [size|] eqn:Htemp.
  - erewrite unlink_present by done. simpl. apply lookup_delete_eq.
  - by rewrite unlink_absent.
Qed.

(** *** updateCommitsAndDumpsVisibleFromTip *)

(** X5: the log of every run of [updateCommitsAndDumpsVisibleFromTip] follows
    the program order and stops at the first call that rejects: the tip,
    then the discovery from the processed commit and, for a tip that is
    another commit, the discovery from the tip, then [updateCommits], then
    [updateDumpsVisibleFromTip].  So commits are written only after every
    discovery has resolved, and visibility is recomputed only after the
    commits have been written. *)
Theorem updateCommitsAndDumpsVisibleFromTip_order fetchConfiguration upload w :
  ∃ trace,
    world_log (updateCommitsAndDumpsVisibleFromTip dumpManager fetchConfiguration
                                                   upload w).2
      = world_log w ++ trace ∧
    ((∃ ok,
        trace = [EvDiscoverTip (upload_repository upload) ok] ∧
        succeeded (updateCommitsAndDumpsVisibleFromTip dumpManager fetchConfiguration
                                                       upload w).1 = false) ∨
     (∃ tipCommit n,
        (n < length (discoveries upload tipCommit))%nat ∧
        trace = EvDiscoverTip (upload_repository upload) true
                  :: completed (take n (discoveries upload tipCommit))
                  ++ ((λ step, step false) <$> take 1 (drop n (discoveries upload tipCommit))) ∧
        succeeded (updateCommitsAndDumpsVisibleFromTip dumpManager fetchConfiguration
                                                       upload w).1 = false) ∨
     (∃ tipCommit commits,
        trace = EvDiscoverTip (upload_repository upload) true
                  :: completed (discoveries upload tipCommit)
                  ++ [EvUpdateCommits (upload_repository upload) commits false] ∧
        succeeded (updateCommitsAndDumpsVisibleFromTip dumpManager fetchConfiguration
                                                       upload w).1 = false) ∨
     (∃ tipCommit commits ok,
        trace = EvDiscoverTip (upload_repository upload) true
                  :: completed (discoveries upload tipCommit)
                  ++ [EvUpdateCommits (upload_repository upload) commits true;
                      EvUpdateDumpsVisibleFromTip (upload_repository upload)
                                                  tipCommit ok] ∧
        succeeded (updateCommitsAndDumpsVisibleFromTip dumpManager fetchConfiguration
                                                       upload w).1 = ok)).
Proof.
  unfold updateCommitsAndDumpsVisibleFromTip. unfold_calls. unfold_monad.
  destruct (discoverTip dumpManager _ _ _) as [[[tipCommit|]|e0] [fs1 st1]]; simpl;
    [|eexists [_]; split; [done|]; left; by exists true
     |eexists [_]; split; [done|]; left; by exists false].
  destruct (discoverCommits dumpManager _ (upload_commit upload) _ _)
    as [[commits|e1] [fs2 st2]]; simpl.
  2:{ eexists [_; _]. rewrite <-app_assoc. split; [done|].
      right; left. exists tipCommit, 0%nat. unfold discoveries. simpl.
      split; [lia|done]. }
  destruct (decide (tipCommit ≠ upload_commit upload)) as [Hother|Hsame]; simpl.
  - destruct (discoverCommits dumpManager _ tipCommit _ _)
      as [[tipCommits|e2] [fs3 st3]]; simpl.
    2:{ eexists [_; _; _]. rewrite <-!app_assoc. split; [done|].
        right; left. exists tipCommit, 1%nat. unfold discoveries.
        rewrite decide_True by done. simpl. split; [lia|done]. }
    destruct (updateCommits dumpManager _ _ _) as [[[]|e3] [fs4 st4]]; simpl.
    + destruct (updateDumpsVisibleFromTip dumpManager _ _ _) as [r [fs5 st5]]; simpl.
      eexists [_; _; _; _; _]. rewrite <-!app_assoc. split; [done|].
      right; right; right. eexists tipCommit, _, (succeeded r).
      unfold discoveries, completed. rewrite decide_True by done. simpl.
      split; [done|by destruct r].
    + eexists [_; _; _; _]. rewrite <-!app_assoc. split; [done|].
      right; right; left. eexists tipCommit, _.
      unfold discoveries, completed. by rewrite decide_True by done.
  - destruct (updateCommits dumpManager _ _ _) as [[[]|e3] [fs4 st4]]; simpl.
    + destruct (updateDumpsVisibleFromTip dumpManager _ _ _) as [r [fs5 st5]]; simpl.
      eexists [_; _; _; _]. rewrite <-!app_assoc. split; [done|].
      right; right; right. eexists tipCommit, _, (succeeded r).
      unfold discoveries, completed. rewrite decide_False by done. simpl.
      split; [done|by destruct r].
    + eexists [_; _; _]. rewrite <-!app_assoc. split; [done|].
      right; right; left. eexists tipCommit, _.
      unfold discoveries, completed. by rewrite decide_False by done.
Qed.

(** X6: when the tip and both discoveries resolve, the graph handed to
    [updateCommits] is the fragment of the processed commit as it was
    discovered if the tip is that commit, and its merge with the fragment
    of the tip otherwise; nothing is written before it. *)
Theorem updateCommits_written_graph
    fetchConfiguration upload w tipCommit env1 commits env2 tipCommits env3 :
  discoverTip dumpManager (upload_repository upload)
              (gitServers (fetchConfiguration tt)) (env_of w)
    = (Ok (Some tipCommit), env1) →
  discoverCommits dumpManager (upload_repository upload) (upload_commit upload)
                  (gitServers (fetchConfiguration tt)) env1 = (Ok commits, env2) →
  (tipCommit ≠ upload_commit upload →
   discoverCommits dumpManager (upload_repository upload) tipCommit
                   (gitServers (fetchConfiguration tt)) env2 = (Ok tipCommits, env3)) →
  ∃ ok rest,
    world_log (updateCommitsAndDumpsVisibleFromTip dumpManager fetchConfiguration
                                                   upload w).2 =
      world_log w ++
        EvDiscoverTip (upload_repository upload) true
          :: completed (discoveries upload tipCommit)
          ++ EvUpdateCommits (upload_repository upload)
               (if decide (tipCommit = upload_commit upload) then commits
                else mergeTipCommits commits tipCommits) ok
          :: rest.
Proof.
  intros Htip Hcommits HtipCommits.
  unfold updateCommitsAndDumpsVisibleFromTip, discoveries, completed.
  unfold_calls. unfold_monad.
  rewrite Htip. destruct env1 as [fs1 st1]; simpl. rewrite Hcommits.
  destruct env2 as [fs2 st2]; simpl.
  destruct (decide (tipCommit = upload_commit upload)) as [Hsame|Hother].
  - rewrite !decide_False by (by intros ?). simpl.
    destruct (updateCommits dumpManager _ _ _) as [[[]|error] [fs4 st4]]; simpl.
    + destruct (updateDumpsVisibleFromTip dumpManager _ _ _) as [r [fs5 st5]]; simpl.
      eexists true, [_]. rewrite <-!app_assoc. simpl. done.
    + exists false, []. rewrite <-!app_assoc. simpl. done.
  - rewrite !decide_True by done. simpl. rewrite (HtipCommits Hother).
    destruct env3 as [fs3 st3]; simpl.
    destruct (updateCommits dumpManager _ _ _) as [[[]|error] [fs4 st4]]; simpl.
    + destruct (updateDumpsVisibleFromTip dumpManager _ _ _) as [r [fs5 st5]]; simpl.
      eexists true, [_]. rewrite <-!app_assoc. simpl. done.
    + exists false, []. rewrite <-!app_assoc. simpl. done.
Qed.

(** *** filesize and dirsize *)

(** X7: [filesize] resolves to the size of the file, and to 0 when no file
    is at the path: the ENOENT of [stat] is caught.  Either way it changes
    neither the file tree nor the store. *)
Theorem filesize_missing_is_zero filename w :
  ∃ found,
    filesize filename w =
      (Ok (match files (world_fs w) !! filename with
           | Some size => size
           | None => 0
           end),
       record_event (EvStat filename found) w) ∧
    (found = true ↔ is_Some (files (world_fs w) !! filename)).
Proof.
  rewrite filesize_spec.
  exists (bool_decide (is_Some (files (world_fs w) !! filename))). split.
  - by destruct (files (world_fs w) !! filename).
  - by rewrite bool_decide_eq_true.
Qed.

Lemma mapM_filesize_sizes (g : string → string) filenames w :
  ∃ trace,
    mapM (λ filename, filesize (g filename)) filenames w =
      (Ok ((λ filename, default 0 (files (world_fs w) !! g filename)) <$> filenames),
       {| world_fs := world_fs w; world_store := world_store w;
          world_log := world_log w ++ trace |}) ∧
    Forall (λ ev, is_fs_read ev = true) trace.
Proof.
  revert w. induction filenames as [|filename filenames IH]; intros w; simpl.
  - exists []. rewrite app_nil_r. by destruct w.
  - unfold mbind at 1, M_bind. rewrite filesize_spec.
    destruct (IH (record_event
                    (EvStat (g filename)
                       (bool_decide (is_Some (files (world_fs w) !! g filename)))) w))
      as (trace & Hrun & Hreads).
    unfold mbind, M_bind. rewrite Hrun. simpl.
    eexists (_ :: trace). rewrite <-app_assoc. split; [done|]. by constructor.
Qed.

Lemma foldl_add_shift (l : list Z) (a : Z) :
  foldl (λ a b, a + b) a l = a + foldl (λ a b, a + b) 0 l.
Proof.
  revert a. induction l as [|x l IH]; intros a; simpl; [lia|].
  rewrite (IH (a + x)), (IH (0 + x)). lia.
Qed.

(** Adding up the sizes looked up under the joined names of the entries of
    [directory] gives the total of the files directly inside it. *)
Lemma listed_sizes_total (path : PathModule) directory (m : gmap string Z)
    (l : list (string * Z)) :
  Forall (λ '(p, size), m !! p = Some size) l →
  Forall (λ '(p, _), path_dirname path p = directory →
                     path_join path [directory; path_basename path p] = p) l →
  foldl (λ a b, a + b) 0
        ((λ filename, default 0 (m !! path_join path [directory; filename]))
           <$> (path_basename path <$>
                  filter (λ p, path_dirname path p = directory) l.*1))
  = foldr (λ '(p, size) total,
             if decide (path_dirname path p = directory) then size + total else total)
          0 l.
Proof.
  induction l as [|[p size] l IH]; intros Hsizes Hjoins; [done|].
  apply Forall_cons_1 in Hsizes as [Hsize Hsizes].
  apply Forall_cons_1 in Hjoins as [Hjoin Hjoins].
  specialize (IH Hsizes Hjoins).
  change (((p, size) :: l).*1) with (p :: l.*1).
  rewrite filter_cons.
  change (foldr ?f 0 ((p, size) :: l)) with (f (p, size) (foldr f 0 l)).
  cbv beta iota. case_decide as Hdir; [|done].
  rewrite !fmap_cons, Hjoin, Hsize by done.
  change (foldl ?f 0 (?x :: ?rest)) with (foldl f (f 0 x) rest).
  cbv beta. rewrite foldl_add_shift, IH. simpl. lia.
Qed.

(** X8: for a directory that exists and whose entries [path.join] gives back
    from their base names, [dirsize] resolves to the total size of the files
    directly inside the directory, files elsewhere not counted, and changes
    neither the file tree nor the store. *)
Theorem dirsize_is_directory_total directory w :
  directory ∈ dirs (world_fs w) →
  joins_back (path imports) directory (world_fs w) →
  ∃ reads,
    dirsize imports directory w =
      (Ok (directory_total (path imports) directory (world_fs w)),
       {| world_fs := world_fs w; world_store := world_store w;
          world_log := world_log w ++ reads |}) ∧
    Forall (λ ev, is_fs_read ev = true) reads.
Proof.
  intros Hexists Hjoins.
  unfold dirsize. unfold_calls. unfold mbind at 1, M_bind, syscall, fs_readdir.
  rewrite decide_True by done. simpl.
  match goal with
  | |- context [(mapM ?f ?l ≫= _) ?w0] =>
      destruct (mapM_filesize_sizes
                  (λ filename, path_join (path imports) [directory; filename]) l w0)
        as (trace & Hrun & Hreads)
  end.
  simpl in Hrun. unfold mbind, M_bind. rewrite Hrun. simpl.
  exists (EvReaddir directory true :: trace). rewrite <-app_assoc.
  split; [|by constructor]. unfold mret, M_ret, directory_total.
  rewrite (listed_sizes_total (path imports) directory (files (world_fs w))
             (map_to_list (files (world_fs w)))); [done| |].
  - apply Forall_forall. intros [p size] Hin. by apply elem_of_map_to_list.
  - apply Forall_forall. intros [p size] Hin%elem_of_map_to_list.
    by apply (Hjoins p size).
Qed.

(** *** purgeOldDumps *)

(** X9: when the directory of databases is within the quota,
    [purgeOldDumps] resolves, whatever the fuel, having only read the file
    tree under the lock: it asks for no prunable dump and deletes nothing,
    and the file tree and the store are as before. *)
Theorem purgeOldDumps_within_quota
    fuel connection storageRoot maximumSizeBytes w currentSizeBytes w1 :
  0 ≤ maximumSizeBytes →
  dirsize imports (path_join (path imports) [storageRoot; DBS_DIR imports])
          (record_event (EvLockAcquire "retention") w) = (Ok currentSizeBytes, w1) →
  currentSizeBytes ≤ maximumSizeBytes →
  ∃ reads,
    purgeOldDumps imports fuel connection dumpManager storageRoot maximumSizeBytes w =
      Some (Ok tt,
            {| world_fs := world_fs w; world_store := world_store w;
               world_log := world_log w ++ critical_section "retention" reads |}) ∧
    Forall (λ ev, is_fs_read ev = true) reads.
Proof.
  intros Hquota Hsize Hwithin.
  unfold purgeOldDumps, withLock, purge, purge_total, completes.
  rewrite decide_False by lia. unfold mbind, MF_bind, mret, MF_ret. rewrite Hsize.
  assert (purge_loop imports fuel dumpManager storageRoot maximumSizeBytes
                     currentSizeBytes w1 = Some (Ok currentSizeBytes, w1)) as ->.
  { destruct fuel; simpl; by rewrite decide_False by lia. }
  apply dirsize_run in Hsize as (Henv & ok & stats & Hlog & Hstats).
  injection Henv as Hfs Hstore. simpl in Hfs, Hstore, Hlog.
  exists (EvReaddir (path_join (path imports) [storageRoot; DBS_DIR imports]) ok :: stats).
  split; [|by constructor]. unfold record_event, critical_section. simpl.
  rewrite Hfs, Hstore, Hlog. by rewrite <-!app_assoc.
Qed.

(** X10: with a quota and no directory of databases, [purgeOldDumps] rejects
    with the ENOENT of [readdir]; the lock has been taken and given back,
    and nothing else has been called. *)
Theorem purgeOldDumps_missing_directory
    fuel connection storageRoot maximumSizeBytes w :
  0 ≤ maximumSizeBytes →
  path_join (path imports) [storageRoot; DBS_DIR imports] ∉ dirs (world_fs w) →
  purgeOldDumps imports fuel connection dumpManager storageRoot maximumSizeBytes w =
    Some (Throw (ENOENT "scandir"
                        (path_join (path imports) [storageRoot; DBS_DIR imports])),
          {| world_fs := world_fs w; world_store := world_store w;
             world_log :=
               world_log w ++
                 critical_section "retention"
                   [EvReaddir (path_join (path imports) [storageRoot; DBS_DIR imports])
                              false] |}).
Proof.
  intros Hquota Hmissing.
  unfold purgeOldDumps, withLock, purge, purge_total, completes, dirsize.
  rewrite decide_False by lia. unfold_calls. unfold_monad. unfold fs_readdir. simpl.
  rewrite decide_False by done. simpl. unfold critical_section.
  by rewrite <-!app_assoc.
Qed.

(** X11: the purge loop deletes only what the store has nominated: every
    call of [deleteDump] in its log comes right after the call of
    [getOldestPrunableDump] that returned that dump, the info log and the
    [stat] of that dump's database file. *)
Theorem purge_loop_deletes_nominated
    fuel storageRoot maximumSizeBytes currentSizeBytes w r w' :
  purge_loop imports fuel dumpManager storageRoot maximumSizeBytes currentSizeBytes w
    = Some (r, w') →
  ∃ trace,
    world_log w' = world_log w ++ trace ∧
    ∀ pre dump ok post,
      trace = pre ++ EvDeleteDump dump ok :: post →
      ∃ pre' found,
        pre = pre' ++
          [EvGetOldestPrunableDump (Ok (Some dump));
           EvLogInfo "Pruning dump";
           EvStat (dbFilename imports storageRoot (dump_id dump)
                              (dump_repository dump) (dump_commit dump)) found].
Proof.
  revert currentSizeBytes w.
  induction fuel as [|fuel IH]; intros currentSizeBytes w; simpl;
    (case_decide as Hover;
     [|intros [= <- <-]; exists []; rewrite app_nil_r; split; [done|];
       by intros [|??] ????]); [done|].
  destruct (purge_body_cases imports dumpManager storageRoot maximumSizeBytes
                             currentSizeBytes w)
    as [(error & env1 & _ & ->)
       |[(env1 & _ & ->)
        |(dump & env1 & deleted & env2 & found & _ & _ & ->)]].
  - intros [= <- <-]. eexists [_]. split; [done|].
    intros [|? [|??]] ????; simplify_eq/=.
  - intros [= <- <-]. eexists [_; _]. split; [done|].
    intros [|? [|? [|??]]] ????; simplify_eq/=.
  - destruct deleted as [[]|error].
    + intros (trace & Hlog & Hdeletes)%IH. simpl in Hlog.
      eexists (_ :: _ :: _ :: _ :: trace). rewrite Hlog, <-app_assoc.
      split; [done|].
      intros [|x1 [|x2 [|x3 [|x4 pre]]]] dump' ok post Hsplit; simplify_eq/=.
      * by exists [], found.
      * destruct (Hdeletes pre dump' ok post eq_refl) as (pre' & found' & ->).
        by eexists (_ :: _ :: _ :: _ :: pre'), found'.
    + intros [= <- <-]. eexists [_; _; _; _]. split; [done|].
      intros [|x1 [|x2 [|x3 [|x4 pre]]]] dump' ok post Hsplit; simplify_eq/=.
      * by exists [], found.
      * by destruct pre.
Qed.

(** *** convertUpload *)

Lemma convertDatabase_log upload w :
  ∃ trace,
    world_log (convertDatabase imports entityManager dumpManager dependencyManager
                               upload w).2 = world_log w ++ trace ∧
    Forall (λ ev, is_lock_event ev = false) trace.
Proof.
  rewrite convertDatabase_unfold.
  destruct (convertDatabase_try imports dumpManager dependencyManager upload w)
    as [[[]|error] w1] eqn:Htry.
  - apply convertDatabase_try_Ok in Htry
      as (packages & references & env1 & env2 & env3 & fs4 & _ & _ & _ & _ & ->).
    destruct (files fs4 !! upload_filename upload) as [size|] eqn:Hsource;
      [erewrite unlink_present by done|rewrite unlink_absent by done];
      unfold completed, pipeline; simpl;
      (eexists [_; _; _; _; _; _]; split;
       [by rewrite <-!app_assoc|by repeat constructor]).
  - apply convertDatabase_try_Throw in Htry.
    destruct (files (world_fs w1) !! tempFile imports upload) as [size|] eqn:Htemp;
      [erewrite unlink_present by done|rewrite unlink_absent by done];
      destruct Htry; unfold rejected_at, completed, pipeline; simpl;
      [eexists [_; _]|eexists [_; _; _]|eexists [_; _; _; _]|eexists [_; _; _; _; _]
      |eexists [_; _]|eexists [_; _; _]|eexists [_; _; _; _]|eexists [_; _; _; _; _]];
      (split; [by rewrite <-!app_assoc|by repeat constructor]).
Qed.

Lemma updateCommitsAndDumpsVisibleFromTip_log fetchConfiguration upload w :
  ∃ trace,
    world_log (updateCommitsAndDumpsVisibleFromTip dumpManager fetchConfiguration
                                                   upload w).2 = world_log w ++ trace ∧
    Forall (λ ev, is_lock_event ev = false) trace.
Proof.
  unfold updateCommitsAndDumpsVisibleFromTip. unfold_calls. unfold_monad.
  destruct (discoverTip dumpManager _ _ _) as [[[tipCommit|]|e0] [fs1 st1]]; simpl;
    [|eexists [_]; split; [done|by repeat constructor]..].
  destruct (discoverCommits dumpManager _ (upload_commit upload) _ _)
    as [[commits|e1] [fs2 st2]]; simpl;
    [|eexists [_; _]; rewrite <-!app_assoc; split; [done|by repeat constructor]].
  case_decide; simpl.
  - destruct (discoverCommits dumpManager _ tipCommit _ _)
      as [[tipCommits|e2] [fs3 st3]]; simpl;
      [|eexists [_; _; _]; rewrite <-!app_assoc; split; [done|by repeat constructor]].
    destruct (updateCommits dumpManager _ _ _) as [[[]|e3] [fs4 st4]]; simpl;
      [|eexists [_; _; _; _]; rewrite <-!app_assoc; split; [done|by repeat constructor]].
    destruct (updateDumpsVisibleFromTip dumpManager _ _ _) as [r [fs5 st5]]; simpl.
    eexists [_; _; _; _; _]. rewrite <-!app_assoc. split; [done|by repeat constructor].
  - destruct (updateCommits dumpManager _ _ _) as [[[]|e3] [fs4 st4]]; simpl;
      [|eexists [_; _; _]; rewrite <-!app_assoc; split; [done|by repeat constructor]].
    destruct (updateDumpsVisibleFromTip dumpManager _ _ _) as [r [fs5 st5]]; simpl.
    eexists [_; _; _; _]. rewrite <-!app_assoc. split; [done|by repeat constructor].
Qed.

Lemma purgeOldDumps_log fuel connection storageRoot maximumSizeBytes w r w' :
  purgeOldDumps imports fuel connection dumpManager storageRoot maximumSizeBytes w
    = Some (r, w') →
  ∃ trace, world_log w' = world_log w ++ trace.
Proof.
  destruct (decide (maximumSizeBytes < 0)) as [Hneg|Hquota].
  - unfold purgeOldDumps. rewrite decide_True by done. intros [= <- <-].
    exists []. by rewrite app_nil_r.
  - intros Hrun.
    destruct (purgeOldDumps_run imports dumpManager fuel connection storageRoot
                maximumSizeBytes w r w') as (r1 & w1 & Htotal & -> & _); [lia|done|].
    destruct (purge_total_run _ _ _ _ _ _ _ _ Htotal) as (body & Hlog & _).
    simpl in *. rewrite Hlog. eexists. by rewrite <-!app_assoc.
Qed.

Lemma not_lock_event_in trace :
  Forall (λ ev, is_lock_event ev = false) trace →
  ¬ Exists (λ ev, is_lock_event ev = true) trace.
Proof.
  rewrite Forall_forall, Exists_exists. intros Hnone (ev & Hin & Hlock).
  apply Hnone in Hin. congruence.
Qed.

(** X12: the purge is the last stage of [convertUpload]: if the log of a run
    shows the retention lock, or if the run resolves, then [convertDatabase]
    and [updateCommitsAndDumpsVisibleFromTip] have both resolved before
    [purgeOldDumps] was entered.  A run that fails in either of them takes
    no lock and purges nothing. *)
Theorem convertUpload_purges_last fuel fetchConfiguration upload w r w' :
  convertUpload imports fuel entityManager dumpManager dependencyManager
                fetchConfiguration upload w = Some (r, w') →
  ∃ trace,
    world_log w' = world_log w ++ trace ∧
    (Exists (λ ev, is_lock_event ev = true) trace ∨ r = Ok tt →
     ∃ w1 w2,
       convertDatabase imports entityManager dumpManager dependencyManager upload w
         = (Ok tt, w1) ∧
       updateCommitsAndDumpsVisibleFromTip dumpManager fetchConfiguration upload w1
         = (Ok tt, w2) ∧
       purgeOldDumps imports fuel (connection entityManager) dumpManager
                     (STORAGE_ROOT imports) (DBS_DIR_MAXIMUM_SIZE_BYTES imports) w2
         = Some (r, w')).
Proof.
  unfold convertUpload, completes, mbind, MF_bind.
  destruct (convertDatabase_log upload w) as (trace1 & Hlog1 & Hquiet1).
  destruct (convertDatabase imports entityManager dumpManager dependencyManager
                            upload w) as [[[]|e1] w1] eqn:Hconvert; simpl in Hlog1.
  2:{ intros [= <- <-]. exists trace1. split; [done|].
      intros [Hlock|[=]]. by apply not_lock_event_in in Hquiet1. }
  destruct (updateCommitsAndDumpsVisibleFromTip_log fetchConfiguration upload w1)
    as (trace2 & Hlog2 & Hquiet2).
  destruct (updateCommitsAndDumpsVisibleFromTip dumpManager fetchConfiguration
                                                upload w1)
    as [[[]|e2] w2] eqn:Hupdate; simpl in Hlog2.
  2:{ intros [= <- <-]. exists (trace1 ++ trace2).
      rewrite Hlog2, Hlog1, <-app_assoc. split; [done|].
      intros [Hlock|[=]].
      assert (Forall (λ ev, is_lock_event ev = false) (trace1 ++ trace2)) as Hquiet
        by (by apply Forall_app).
      by apply not_lock_event_in in Hquiet. }
  intros Hpurge. destruct (purgeOldDumps_log _ _ _ _ _ _ _ Hpurge) as (trace3 & Hlog3).
  exists (trace1 ++ trace2 ++ trace3). rewrite Hlog3, Hlog2, Hlog1, <-!app_assoc.
  split; [done|]. intros _. by exists w1, w2.
Qed.
End worker_more_facts.

(** ** The thread mutations *)

Module ThreadsFacts.
Import Threads.

Ltac unfold_go :=
  unfold invoke, checked, fail, mbind, G_bind, mret, G_ret in *.

Section resolver_facts.
Context {Ctx Database Repository : Type}.
Context (backend : Backend Ctx Database Repository).
Implicit Types (ctx : Ctx) (st : State Database).

(** X13: [CreateThread] calls [dbThreads.Create] only after the repository
    and the comment actor have been resolved, in that order, and the row it
    hands over is always in the open state, is a preview exactly when
    [Preview] is given and true, belongs to the repository found, and has
    the empty string where [Body], [BaseRef] or [HeadRef] is nil. *)
Theorem CreateThread_row ctx input st :
  ∃ new,
    calls (CreateThread backend ctx input st).2 = calls st ++ new ∧
    ∀ data comment,
      CallCreate data comment ∈ new →
      new = [CallRepositoryByID (create_Repository input);
             CallCommentActorFromContext;
             CallCreate data comment] ∧
      thread_State data = ThreadStateOpen backend ∧
      (thread_IsPreview data = true ↔ create_Preview input = Some true) ∧
      thread_Title data = create_Title input ∧
      thread_BaseRef data = default "" (create_BaseRef input) ∧
      thread_HeadRef data = default "" (create_HeadRef input) ∧
      comment_Body comment = default "" (create_Body input) ∧
      ∃ repo database1 database2,
        RepositoryByID backend ctx (create_Repository input) (database st)
          = (Value repo, database1) ∧
        CommentActorFromContext backend ctx database1
          = (Value (AuthorUserID comment), database2) ∧
        thread_RepositoryID data = DBID backend repo.
Proof.
  unfold CreateThread. unfold_go.
  destruct (RepositoryByID backend ctx _ _) as [[repo|err] database1] eqn:Hrepo; simpl.
  2:{ eexists [_]. split; [done|].
      intros data comment Hin. apply list_elem_of_singleton in Hin. done. }
  destruct (CommentActorFromContext backend ctx _) as [[actor|err] database2] eqn:Hactor;
    simpl.
  2:{ eexists [_; _]. rewrite <-app_assoc. split; [done|].
      intros data comment Hin. do 2 (apply elem_of_cons in Hin as [[=]|Hin]).
      by apply elem_of_nil in Hin. }
  destruct (dbThreads_Create backend ctx _ _ _) as [[thread|err] database3]; simpl;
    (eexists [_; _; _]; rewrite <-!app_assoc; split; [done|]);
    intros data comment Hin;
    do 2 (apply elem_of_cons in Hin as [[=]|Hin]);
    apply list_elem_of_singleton in Hin; injection Hin as -> ->; simpl;
    (split; [done|]); (split; [done|]);
    (split; [by destruct (create_Preview input) as [[]|]|]);
    (split; [done|]);
    (split; [by destruct (create_BaseRef input)|]);
    (split; [by destruct (create_HeadRef input)|]);
    (split; [by destruct (create_Body input)|]);
    by exists repo, database1, database2.
Qed.

(** X14: [PublishPreviewThread] refuses a thread that is not a preview: it
    returns the error "thread has already been published (and is not in
    preview)" and has called nothing but [threadByID], so no update is
    issued. *)
Theorem PublishPreviewThread_refuses_published ctx thread st l database1 :
  threadByID backend ctx thread (database st) = (Value l, database1) →
  IsPreview backend l = false →
  PublishPreviewThread backend ctx thread st =
    (Failed already_published,
     {| database := database1; calls := calls st ++ [CallThreadByID thread] |}).
Proof.
  intros Hfound Hpublished. unfold PublishPreviewThread. unfold_go.
  rewrite Hfound. simpl. by rewrite Hpublished.
Qed.

(** X15: only [PublishPreviewThread] touches the preview flag, and it only
    clears it: every update that [UpdateThread] issues leaves [IsPreview]
    nil and carries the title and refs of the input, and every update that
    [PublishPreviewThread] issues sets [IsPreview] to false and nothing
    else, for a thread that was found and is a preview.  Both address the
    thread that [threadByID] returned. *)
Theorem updates_and_the_preview_flag ctx input thread st :
  (∃ new,
     calls (UpdateThread backend ctx input st).2 = calls st ++ new ∧
     ∀ id update,
       CallUpdate id update ∈ new →
       update = {| set_Title := update_Title input;
                   set_BaseRef := update_BaseRef input;
                   set_HeadRef := update_HeadRef input;
                   set_IsPreview := None |} ∧
       ∃ l database1,
         threadByID backend ctx (update_ID input) (database st) = (Value l, database1) ∧
         id = thread_ID (db l)) ∧
  (∃ new,
     calls (PublishPreviewThread backend ctx thread st).2 = calls st ++ new ∧
     ∀ id update,
       CallUpdate id update ∈ new →
       update = {| set_Title := None; set_BaseRef := None; set_HeadRef := None;
                   set_IsPreview := Some false |} ∧
       ∃ l database1,
         threadByID backend ctx thread (database st) = (Value l, database1) ∧
         IsPreview backend l = true ∧
         id = thread_ID (db l)).
Proof.
  split.
  - unfold UpdateThread. unfold_go.
    destruct (threadByID backend ctx _ _) as [[l|err] database1] eqn:Hfound; simpl.
    2:{ eexists [_]. split; [done|]. by intros ?? [=]%list_elem_of_singleton. }
    destruct (dbThreads_Update backend ctx _ _ _) as [[t|err] database2]; simpl;
      (eexists [_; _]; rewrite <-app_assoc; split; [done|]);
      intros id update Hin; apply elem_of_cons in Hin as [[=]|Hin];
      apply list_elem_of_singleton in Hin; injection Hin as -> ->;
      (split; [done|]); by exists l, database1.
  - unfold PublishPreviewThread. unfold_go.
    destruct (threadByID backend ctx _ _) as [[l|err] database1] eqn:Hfound; simpl.
    2:{ eexists [_]. split; [done|]. by intros ?? [=]%list_elem_of_singleton. }
    destruct (IsPreview backend l) eqn:Hpreview; simpl.
    2:{ eexists [_]. split; [done|]. by intros ?? [=]%list_elem_of_singleton. }
    destruct (dbThreads_Update backend ctx _ _ _) as [[t|err] database2]; simpl;
      (eexists [_; _]; rewrite <-app_assoc; split; [done|]);
      intros id update Hin; apply elem_of_cons in Hin as [[=]|Hin];
      apply list_elem_of_singleton in Hin; injection Hin as -> ->;
      (split; [done|]); by exists l, database1.
Qed.

(** X16: [DeleteThread] never returns a response value: it returns nil with
    the error of [threadByID] or of [DeleteByID], or nil and no error.  It
    deletes at most once, and only the thread that [threadByID] found; when
    the lookup fails nothing is deleted. *)
Theorem DeleteThread_deletes_found ctx thread st :
  (∀ response, (DeleteThread backend ctx thread st).1 ≠ Value (Some response)) ∧
  ∃ new,
    calls (DeleteThread backend ctx thread st).2 = calls st ++ new ∧
    ((∃ err database1,
        threadByID backend ctx thread (database st) = (Failed err, database1) ∧
        DeleteThread backend ctx thread st =
          (Failed err, {| database := database1;
                          calls := calls st ++ [CallThreadByID thread] |}) ∧
        new = [CallThreadByID thread]) ∨
     (∃ l database1,
        threadByID backend ctx thread (database st) = (Value l, database1) ∧
        new = [CallThreadByID thread; CallDeleteByID (thread_ID (db l))])).
Proof.
  unfold DeleteThread. unfold_go.
  destruct (threadByID backend ctx _ _) as [[l|err] database1] eqn:Hfound; simpl.
  - destruct (dbThreads_DeleteByID backend ctx _ _) as [[err|] database2]; simpl;
      (split; [done|]); (eexists [_; _]; rewrite <-app_assoc; split; [done|]);
      right; by exists l, database1.
  - split; [done|]. eexists [_]. split; [done|]. left. by exists err, database1.
Qed.
End resolver_facts.

(** Thread 1 of the small backend is published. *)
Lemma PublishPreviewThread_refuses_published_witness :
  threadByID demo_backend (Some 5) "thread-1" (database demo_state)
    = (Value {| db := demo_thread 1 false |}, database demo_state) ∧
  IsPreview demo_backend {| db := demo_thread 1 false |} = false ∧
  PublishPreviewThread demo_backend (Some 5) "thread-1" demo_state =
    (Failed already_published,
     {| database := database demo_state; calls := [CallThreadByID "thread-1"] |}).
Proof.
  assert (threadByID demo_backend (Some 5) "thread-1" (database demo_state)
          = (Value {| db := demo_thread 1 false |}, database demo_state)) as Hfound.
  { vm_compute. reflexivity. }
  assert (IsPreview demo_backend {| db := demo_thread 1 false |} = false) as Hpublished.
  { reflexivity. }
  split; [exact Hfound|]. split; [exact Hpublished|].
  exact (PublishPreviewThread_refuses_published demo_backend (Some 5) "thread-1"
           demo_state _ _ Hfound Hpublished).
Defined.

(** Publishing the preview thread 2 clears its flag, and publishing it again
    is refused. *)
Example publish_twice :
  ∃ l st1,
    PublishPreviewThread demo_backend (Some 5) "thread-2" demo_state = (Value l, st1) ∧
    thread_IsPreview (db l) = false ∧
    (PublishPreviewThread demo_backend (Some 5) "thread-2" st1).1
      = Failed already_published.
Proof. eexists _, _. split; [vm_compute; reflexivity|]. by vm_compute. Qed.

End ThreadsFacts.

(** ** The further properties on the small deployment *)

(** The insert into the dependency store fails: the temp file is gone. *)
Lemma convertDatabase_leaves_no_temp_file_witness :
  let imports := demo_imports 1000 in
  tempFile imports demo_upload ≠ finalFile imports demo_upload ∧
  files (world_fs (convertDatabase imports demo_entityManager demo_dumpManager
                                   demo_dependencyManager demo_upload
                                   (demo_world ["addPackagesAndReferences"])).2)
    !! tempFile imports demo_upload = None.
Proof.
  intros imports.
  assert (tempFile imports demo_upload ≠ finalFile imports demo_upload) as Hdistinct.
  { vm_compute. discriminate. }
  split; [exact Hdistinct|].
  exact (convertDatabase_leaves_no_temp_file imports demo_entityManager
           demo_dumpManager demo_dependencyManager demo_upload _ Hdistinct).
Defined.

(** A conversion that goes through. *)
Lemma convertDatabase_resolved_witness :
  let imports := demo_imports 1000 in
  ∃ w',
    convertDatabase imports demo_entityManager demo_dumpManager
                    demo_dependencyManager demo_upload (demo_world []) = (Ok tt, w') ∧
    world_log w' =
      world_log (demo_world []) ++ completed (pipeline imports demo_upload)
        ++ [EvLogInfo "Created dump"; EvUnlink (upload_filename demo_upload) true] ∧
    files (world_fs w') !! upload_filename demo_upload = None ∧
    (finalFile imports demo_upload ≠ upload_filename demo_upload →
     is_Some (files (world_fs w') !! finalFile imports demo_upload)).
Proof.
  intros imports. eexists. split; [vm_compute; reflexivity|].
  eapply (convertDatabase_resolved imports demo_entityManager demo_dumpManager
           demo_dependencyManager demo_upload (demo_world [])).
  vm_compute. reflexivity.
Defined.

(** An upload kept in the temp directory, and a converter that rejects. *)
Lemma convertDatabase_upload_at_temp_path_witness :
  let imports := demo_imports 1000 in
  let upload := {| upload_id := 8; upload_repository := "mux"; upload_commit := "c1";
                   upload_root := ""; upload_filename := "/lsif/temp/u7" |} in
  let w := {| world_fs := demo_fs_partial;
              world_store := demo_store (Some "c2") ["convertLsif"];
              world_log := [] |} in
  ∃ error w1,
    upload_filename upload = tempFile imports upload ∧
    conversion_fails imports demo_dumpManager demo_dependencyManager upload w error w1 ∧
    files (world_fs (convertDatabase imports demo_entityManager demo_dumpManager
                                     demo_dependencyManager upload w).2)
      !! upload_filename upload = None.
Proof.
  intros imports upload w. eexists _, _.
  assert (upload_filename upload = tempFile imports upload) as Hsame.
  { vm_compute. reflexivity. }
  split; [exact Hsame|]. split; [by eapply converter_fails|].
  eapply (convertDatabase_upload_at_temp_path imports demo_entityManager
            demo_dumpManager demo_dependencyManager upload w);
    [exact Hsame|by eapply converter_fails].
Defined.

(** The tip "c2" is another commit than the processed "c1". *)
Lemma updateCommits_written_graph_witness :
  let w := demo_world [] in
  let commits : CommitGraph := {[ "c1" := {[ "c0" ]} ]} in
  let tipCommits : CommitGraph := {[ "c2" := {[ "c0" ]} ]} in
  discoverTip demo_dumpManager (upload_repository demo_upload)
              (gitServers (demo_fetchConfiguration tt)) (env_of w)
    = (Ok (Some "c2"), env_of w) ∧
  discoverCommits demo_dumpManager (upload_repository demo_upload)
                  (upload_commit demo_upload)
                  (gitServers (demo_fetchConfiguration tt)) (env_of w)
    = (Ok commits, env_of w) ∧
  ("c2" ≠ upload_commit demo_upload →
   discoverCommits demo_dumpManager (upload_repository demo_upload) "c2"
                   (gitServers (demo_fetchConfiguration tt)) (env_of w)
     = (Ok tipCommits, env_of w)) ∧
  ∃ ok rest,
    world_log (updateCommitsAndDumpsVisibleFromTip demo_dumpManager
                 demo_fetchConfiguration demo_upload w).2 =
      world_log w ++
        EvDiscoverTip (upload_repository demo_upload) true
          :: completed (discoveries demo_upload "c2")
          ++ EvUpdateCommits (upload_repository demo_upload)
               (if decide ("c2" = upload_commit demo_upload) then commits
                else mergeTipCommits commits tipCommits) ok
          :: rest.
Proof.
  intros w commits tipCommits.
  assert (discoverTip demo_dumpManager (upload_repository demo_upload)
            (gitServers (demo_fetchConfiguration tt)) (env_of w)
          = (Ok (Some "c2"), env_of w)) as Htip by (vm_compute; reflexivity).
  assert (discoverCommits demo_dumpManager (upload_repository demo_upload)
            (upload_commit demo_upload)
            (gitServers (demo_fetchConfiguration tt)) (env_of w)
          = (Ok commits, env_of w)) as Hcommits by (vm_compute; reflexivity).
  assert ("c2" ≠ upload_commit demo_upload →
          discoverCommits demo_dumpManager (upload_repository demo_upload) "c2"
            (gitServers (demo_fetchConfiguration tt)) (env_of w)
          = (Ok tipCommits, env_of w)) as HtipCommits
    by (intros _; vm_compute; reflexivity).
  split; [exact Htip|]. split; [exact Hcommits|]. split; [exact HtipCommits|].
  exact (updateCommits_written_graph demo_dumpManager demo_fetchConfiguration
           demo_upload w "c2" _ commits _ tipCommits _ Htip Hcommits HtipCommits).
Defined.

(** The directory of databases of the deployment holds 1100 bytes. *)
Lemma dirsize_is_directory_total_witness :
  let imports := demo_imports 1000 in
  let w := demo_world [] in
  "/lsif/dbs" ∈ dirs (world_fs w) ∧
  joins_back (path imports) "/lsif/dbs" (world_fs w) ∧
  directory_total (path imports) "/lsif/dbs" (world_fs w) = 1100 ∧
  ∃ reads,
    dirsize imports "/lsif/dbs" w =
      (Ok (directory_total (path imports) "/lsif/dbs" (world_fs w)),
       {| world_fs := world_fs w; world_store := world_store w;
          world_log := world_log w ++ reads |}) ∧
    Forall (λ ev, is_fs_read ev = true) reads.
Proof.
  intros imports w.
  assert ("/lsif/dbs" ∈ dirs (world_fs w)) as Hexists.
  { apply (bool_decide_unpack _). vm_compute. exact I. }
  assert (joins_back (path imports) "/lsif/dbs" (world_fs w)) as Hjoins.
  { unfold joins_back. apply (bool_decide_unpack _). vm_compute. exact I. }
  split; [exact Hexists|]. split; [exact Hjoins|].
  split; [vm_compute; reflexivity|].
  exact (dirsize_is_directory_total imports "/lsif/dbs" w Hexists Hjoins).
Defined.

(** A quota of 2000 bytes over 1100 bytes of databases: nothing to purge. *)
Lemma purgeOldDumps_within_quota_witness :
  let imports := demo_imports 2000 in
  let w := demo_world [] in
  ∃ w1,
    0 ≤ 2000 ∧
    dirsize imports (path_join (path imports) ["/lsif"; DBS_DIR imports])
            (record_event (EvLockAcquire "retention") w) = (Ok 1100, w1) ∧
    1100 ≤ 2000 ∧
    ∃ reads,
      purgeOldDumps imports 0 (connection demo_entityManager) demo_dumpManager
                    "/lsif" 2000 w =
        Some (Ok tt,
              {| world_fs := world_fs w; world_store := world_store w;
                 world_log := world_log w ++ critical_section "retention" reads |}) ∧
      Forall (λ ev, is_fs_read ev = true) reads.
Proof.
  intros imports w. eexists.
  assert (0 ≤ 2000) as Hquota by lia.
  assert (1100 ≤ 2000) as Hwithin by lia.
  split; [exact Hquota|]. split; [vm_compute; reflexivity|]. split; [exact Hwithin|].
  eapply (purgeOldDumps_within_quota imports demo_dumpManager 0
            (connection demo_entityManager) "/lsif" 2000 w 1100);
    [exact Hquota|vm_compute; reflexivity|exact Hwithin].
Defined.

(** The directory of databases has not been created. *)
Lemma purgeOldDumps_missing_directory_witness :
  let imports := demo_imports 1000 in
  let w := demo_world_without_dbs in
  0 ≤ 1000 ∧
  path_join (path imports) ["/lsif"; DBS_DIR imports] ∉ dirs (world_fs w) ∧
  purgeOldDumps imports 4 (connection demo_entityManager) demo_dumpManager
                "/lsif" 1000 w =
    Some (Throw (ENOENT "scandir" "/lsif/dbs"),
          {| world_fs := world_fs w; world_store := world_store w;
             world_log :=
               world_log w ++
                 critical_section "retention" [EvReaddir "/lsif/dbs" false] |}).
Proof.
  intros imports w.
  assert (0 ≤ 1000) as Hquota by lia.
  assert (path_join (path imports) ["/lsif"; DBS_DIR imports] ∉ dirs (world_fs w))
    as Hmissing.
  { apply (bool_decide_unpack _). vm_compute. exact I. }
  split; [exact Hquota|]. split; [exact Hmissing|].
  exact (purgeOldDumps_missing_directory imports demo_dumpManager 4
           (connection demo_entityManager) "/lsif" 1000 w Hquota Hmissing).
Defined.

(** The loop over the three prunable dumps, with nothing allowed to stay. *)
Lemma purge_loop_deletes_nominated_witness :
  let imports := demo_imports 0 in
  ∃ r w',
    purge_loop imports 4 demo_dumpManager "/lsif" 0 1100 (demo_world [])
      = Some (r, w') ∧
    ∃ trace,
      world_log w' = world_log (demo_world []) ++ trace ∧
      ∀ pre dump ok post,
        trace = pre ++ EvDeleteDump dump ok :: post →
        ∃ pre' found,
          pre = pre' ++
            [EvGetOldestPrunableDump (Ok (Some dump));
             EvLogInfo "Pruning dump";
             EvStat (dbFilename imports "/lsif" (dump_id dump)
                                (dump_repository dump) (dump_commit dump)) found].
Proof.
  intros imports. eexists _, _. split; [vm_compute; reflexivity|].
  eapply (purge_loop_deletes_nominated imports demo_dumpManager 4 "/lsif" 0 1100
           (demo_world [])).
  vm_compute. reflexivity.
Defined.

(** A full run of [convertUpload]. *)
Lemma convertUpload_purges_last_witness :
  let imports := demo_imports 1000 in
  ∃ r w',
    convertUpload imports 4 demo_entityManager demo_dumpManager
                  demo_dependencyManager demo_fetchConfiguration demo_upload
                  (demo_world []) = Some (r, w') ∧
    ∃ trace,
      world_log w' = world_log (demo_world []) ++ trace ∧
      (Exists (λ ev, is_lock_event ev = true) trace ∨ r = Ok tt →
       ∃ w1 w2,
         convertDatabase imports demo_entityManager demo_dumpManager
                         demo_dependencyManager demo_upload (demo_world [])
           = (Ok tt, w1) ∧
         updateCommitsAndDumpsVisibleFromTip demo_dumpManager demo_fetchConfiguration
                                             demo_upload w1 = (Ok tt, w2) ∧
         purgeOldDumps imports 4 (connection demo_entityManager) demo_dumpManager
                       (STORAGE_ROOT imports) (DBS_DIR_MAXIMUM_SIZE_BYTES imports) w2
           = Some (r, w')).
Proof.
  intros imports. eexists _, _. split; [vm_compute; reflexivity|].
  eapply (convertUpload_purges_last imports demo_entityManager demo_dumpManager
           demo_dependencyManager 4 demo_fetchConfiguration demo_upload
           (demo_world [])).
  vm_compute. reflexivity.
Defined.
